(** * OpenCAD: a shallow embedding of [opencad.c]

    The library draws into a caller-owned buffer of packed 32-bit colours
    and writes the buffer out as a binary PPM file.  Every function of
    [opencad.c] is transcribed below, statement by statement:

    - [int] is a 32-bit two's-complement integer, carried as a [Z] in
      [INT_MIN, INT_MAX]; every arithmetic operation wraps, which is what
      the compiled code computes (ISO C leaves signed overflow undefined);
    - [size_t] is a 64-bit unsigned integer, carried as a [Z] reduced
      modulo [2^64]; the casts between the two types are written out;
    - the pixel buffer is a [list Z]; an access outside the list is the
      outcome [OutOfBounds];
    - a [for] loop is run with fuel, one unit per test of its condition; a
      loop that never leaves its condition yields [OutOfFuel] for every
      amount of fuel;
    - the file is written through a C stream with a buffer: a write may
      only store its bytes in the buffer, and a failure of the device shows
      at the write that transmits them or, for what is left, in [fclose]. *)

From Stdlib Require Import ZArith Lia Bool Ascii String DecimalString.
From stdpp Require Import base numbers list.

Local Open Scope Z_scope.

(** ** Machine integers *)

Module Machine.

Definition INT_MIN : Z := -2147483648.
Definition INT_MAX : Z := 2147483647.
Definition SIZE_MAX : Z := 18446744073709551615.

(** Reduction of a mathematical integer to the [int] it is stored as. *)
Definition int_wrap (z : Z) : Z := (z + 2147483648) mod 4294967296 - 2147483648.

(** Reduction of a mathematical integer to the [size_t] it is stored as. *)
Definition size_wrap (z : Z) : Z := z mod 18446744073709551616.

Definition int_add (a b : Z) : Z := int_wrap (a + b).
Definition int_sub (a b : Z) : Z := int_wrap (a - b).
Definition int_mul (a b : Z) : Z := int_wrap (a * b).
(** C's [/] on [int]: the quotient is truncated toward zero. *)
Definition int_div (a b : Z) : Z := int_wrap (Z.quot a b).
(** [++v] on an [int]. *)
Definition int_succ (a : Z) : Z := int_add a 1.

Definition size_add (a b : Z) : Z := size_wrap (a + b).
Definition size_mul (a b : Z) : Z := size_wrap (a * b).
(** [++i] on a [size_t]. *)
Definition size_succ (a : Z) : Z := size_add a 1.

(** The cast [(int) n] of a [size_t]. *)
Definition int_of_size (n : Z) : Z := int_wrap n.
(** The conversion of an [int] operand to [size_t] in mixed arithmetic. *)
Definition size_of_int (a : Z) : Z := size_wrap a.

(** The values an [int] can hold. *)
Definition is_int (z : Z) : Prop := INT_MIN <= z <= INT_MAX.
(** The values a [size_t] can hold. *)
Definition is_size (z : Z) : Prop := 0 <= z <= SIZE_MAX.

End Machine.

Export Machine.

(** ** Outcomes of a run *)

Inductive result (A : Type) : Type :=
  | Ok (a : A)
  | OutOfBounds
  | OutOfFuel.

Arguments Ok {A} a.
Arguments OutOfBounds {A}.
Arguments OutOfFuel {A}.

#[global] Instance result_bind : MBind result := fun A B k r =>
  match r with
  | Ok a => k a
  | OutOfBounds => OutOfBounds
  | OutOfFuel => OutOfFuel
  end.

(** [for (v = i; cond(v); v = next(v)) s = body(v, s)]. *)
Fixpoint for_loop {S : Type} (fuel : nat) (cond : Z -> bool) (next : Z -> Z)
    (body : Z -> S -> result S) (i : Z) (s : S) : result S :=
  match fuel with
  | O => OutOfFuel
  | Datatypes.S fuel' =>
      if cond i
      then s' ← body i s; for_loop fuel' cond next body (next i) s'
      else Ok s
  end.

(** ** The pixel buffer *)

(** [pixels[i] = v] for a [size_t] index [i]. *)
Definition store (pixels : list Z) (i : Z) (v : Z) : result (list Z) :=
  if (Z.to_nat i <? length pixels)%nat then Ok (<[Z.to_nat i := v]> pixels) else OutOfBounds.

(** [pixels[i]] for a [size_t] index [i]. *)
Definition load (pixels : list Z) (i : Z) : result Z :=
  match pixels !! Z.to_nat i with
  | Some v => Ok v
  | None => OutOfBounds
  end.

(** The data model's invariant: the buffer holds [width * height] elements
    and is addressable by a [size_t]. *)
Definition buffer_ok (pixels : list Z) (width height : Z) : Prop :=
  0 <= width /\ 0 <= height /\
  Z.of_nat (length pixels) = width * height /\ width * height <= SIZE_MAX.

(** The position of pixel [(x, y)] in a buffer of the given width. *)
Definition pixel_index (width x y : Z) : nat := Z.to_nat (y * width + x).

(** ** The drawing primitives *)

Definition swap_int (p : Z * Z) : Z * Z := (snd p, fst p).

Definition opencad_fill (fuel : nat) (pixels : list Z) (width height : Z)
    (color : Z) : result (list Z) :=
  for_loop fuel (fun i => i <? size_mul width height) size_succ
    (fun i pixels => store pixels i color) 0 pixels.

Definition opencad_fill_rect (fuel : nat) (pixels : list Z)
    (pixels_width pixels_height : Z) (x0 y0 : Z) (w h : Z) (color : Z)
    : result (list Z) :=
  for_loop fuel (fun dy => dy <? int_of_size h) int_succ
    (fun dy pixels =>
       let y := int_add y0 dy in
       if (0 <=? y) && (y <? int_of_size pixels_height) then
         for_loop fuel (fun dx => dx <? int_of_size w) int_succ
           (fun dx pixels =>
              let x := int_add x0 dx in
              if (0 <=? x) && (x <? int_of_size pixels_width) then
                store pixels
                  (size_add (size_mul (size_of_int y) pixels_width) (size_of_int x))
                  color
              else Ok pixels)
           0 pixels
       else Ok pixels)
    0 pixels.

Definition opencad_fill_circle (fuel : nat) (pixels : list Z)
    (pixels_width pixels_height : Z) (cx cy r : Z) (color : Z)
    : result (list Z) :=
  let x1 := int_sub cx r in
  let y1 := int_sub cy r in
  let x2 := int_add cx r in
  let y2 := int_add cy r in
  for_loop fuel (fun y => y <=? y2) int_succ
    (fun y pixels =>
       if (0 <=? y) && (y <? int_of_size pixels_height) then
         for_loop fuel (fun x => x <=? x2) int_succ
           (fun x pixels =>
              if (0 <=? x) && (x <? int_of_size pixels_width) then
                let dx := int_sub x cx in
                let dy := int_sub y cy in
                if int_add (int_mul dx dx) (int_mul dy dy) <=? int_mul r r then
                  store pixels
                    (size_add (size_mul (size_of_int y) pixels_width) (size_of_int x))
                    color
                else Ok pixels
              else Ok pixels)
           x1 pixels
       else Ok pixels)
    y1 pixels.

Definition opencad_draw_line (fuel : nat) (pixels : list Z)
    (pixels_width pixels_height : Z) (x1 y1 x2 y2 : Z) (color : Z)
    : result (list Z) :=
  let dx := int_sub x2 x1 in
  let dy := int_sub y2 y1 in
  if negb (dx =? 0) then
    let c := int_sub y1 (int_div (int_mul dy x1) dx) in
    let '(x1, x2) := if x1 >? x2 then swap_int (x1, x2) else (x1, x2) in
    for_loop fuel (fun x => x <=? x2) int_succ
      (fun x pixels =>
         if (0 <=? x) && (x <? int_of_size pixels_width) then
           let sy1 := int_add (int_div (int_mul dy x) dx) c in
           let sy2 := int_add (int_div (int_mul dy (int_add x 1)) dx) c in
           let '(sy1, sy2) := if sy1 >? sy2 then swap_int (sy1, sy2) else (sy1, sy2) in
           for_loop fuel (fun y => y <=? sy2) int_succ
             (fun y pixels =>
                if (0 <=? y) && (y <? int_of_size pixels_height) then
                  store pixels
                    (size_add (size_mul (size_of_int y) pixels_width) (size_of_int x))
                    color
                else Ok pixels)
             sy1 pixels
         else Ok pixels)
      x1 pixels
  else
    let x := x1 in
    if (0 <=? x) && (x <? int_of_size pixels_width) then
      let '(y1, y2) := if y1 >? y2 then swap_int (y1, y2) else (y1, y2) in
      for_loop fuel (fun y => y <=? y2) int_succ
        (fun y pixels =>
           if (0 <=? y) && (y <? int_of_size pixels_height) then
             store pixels
               (size_add (size_mul (size_of_int y) pixels_width) (size_of_int x))
               color
           else Ok pixels)
        y1 pixels
    else Ok pixels.

(** ** The C stream behind [save_to_ppm_file] *)

(** What the C library and the operating system do to the calls of one
    run.  [fopen] may fail, and sets [errno] to the given code.  The stream
    it returns has a buffer: write number [k] on the stream (the [fprintf]
    is number 0, the [fwrite] of pixel [i] number [i + 1]) either only
    stores its bytes in the buffer ([buffered k]), or transmits what the
    buffer holds, these bytes included, to the device.  A stream without a
    buffer transmits at every write; a fully buffered stream whose buffer
    is larger than the image transmits nothing before [fclose].  The device
    may fail while it takes the bytes of write [k]: it then takes their
    first [n] bytes only and [errno] is set to the code [e]
    ([write_fails k = Some (e, n)]). *)
Record io_env : Type := {
  fopen_fails : option Z;
  buffered : nat -> bool;
  write_fails : nat -> option (Z * nat)
}.

(** A [FILE]: the bytes that reached the file, the writes that wait in the
    stream's buffer (each with its number), the error indicator (what
    [ferror] reads), the number of writes made on the stream, whether it is
    open. *)
Record FILE : Type := {
  data : list ascii;
  pending : list (nat * list ascii);
  error : bool;
  nwrites : nat;
  is_open : bool
}.

(** [errno] and the file at [file_path], if there is one. *)
Record world : Type := {
  errno : Z;
  disk : option FILE
}.

Definition EOF : Z := -1.

(** [fopen(file_path, "wb")]: [true] when the returned pointer is not NULL. *)
Definition fopen (env : io_env) (w : world) : bool * world :=
  match fopen_fails env with
  | Some e => (false, {| errno := e; disk := disk w |})
  | None =>
      (true, {| errno := errno w;
                disk := Some {| data := []; pending := []; error := false;
                                nwrites := 0; is_open := true |} |})
  end.

(** The device takes the writes of the buffer in order and stops at the
    first that fails: the bytes that have reached the file, and the code of
    the failure if there is one. *)
Fixpoint transmit (env : io_env) (writes : list (nat * list ascii))
    (bytes : list ascii) : list ascii * option Z :=
  match writes with
  | [] => (bytes, None)
  | (k, b) :: writes =>
      match write_fails env k with
      | None => transmit env writes (bytes ++ b)
      | Some (e, n) => (bytes ++ take n b, Some e)
      end
  end.

(** The stream empties its buffer into the device.  What the device did not
    take is lost; a failure sets the error indicator and [errno].  The
    result is [0], or [EOF] for a failure. *)
Definition flush (env : io_env) (w : world) : Z * world :=
  match disk w with
  | None => (EOF, w)
  | Some f =>
      match transmit env (pending f) (data f) with
      | (bytes, None) =>
          (0, {| errno := errno w;
                 disk := Some {| data := bytes; pending := []; error := error f;
                                 nwrites := nwrites f; is_open := is_open f |} |})
      | (bytes, Some e) =>
          (EOF, {| errno := e;
                   disk := Some {| data := bytes; pending := []; error := true;
                                   nwrites := nwrites f; is_open := is_open f |} |})
      end
  end.

(** One write of [bytes] on the open stream ([fprintf] or [fwrite]; the
    code reads the error indicator afterwards, not the call's result). *)
Definition fwrite (env : io_env) (bytes : list ascii) (w : world) : world :=
  match disk w with
  | None => w
  | Some f =>
      let w :=
        {| errno := errno w;
           disk := Some {| data := data f; pending := pending f ++ [(nwrites f, bytes)];
                           error := error f; nwrites := S (nwrites f);
                           is_open := is_open f |} |} in
      if buffered env (nwrites f) then w else snd (flush env w)
  end.

Definition ferror (w : world) : bool :=
  match disk w with
  | None => false
  | Some f => error f
  end.

(** [fclose]: what the buffer still holds is transmitted, then the stream
    is closed, whether or not that succeeded.  The result is [0], or [EOF]
    when the transmission failed. *)
Definition fclose (env : io_env) (w : world) : Z * world :=
  let '(status, w) := flush env w in
  match disk w with
  | None => (EOF, w)
  | Some f =>
      (status,
       {| errno := errno w;
          disk := Some {| data := data f; pending := pending f; error := error f;
                          nwrites := nwrites f; is_open := false |} |})
  end.

(** [%zu]: a [size_t] in decimal, most significant digit first. *)
Definition format_zu (n : Z) : list ascii :=
  list_ascii_of_string (DecimalString.NilZero.string_of_uint (N.to_uint (Z.to_N n))).

Definition newline : ascii := ascii_of_nat 10.
Definition space : ascii := ascii_of_nat 32.

(** The expansion of the format ["P6\n%zu %zu 255\n"]. *)
Definition ppm_header (width height : Z) : list ascii :=
  list_ascii_of_string "P6" ++ [newline] ++ format_zu width ++ [space] ++
  format_zu height ++ [space] ++ list_ascii_of_string "255" ++ [newline].

(** The conversion of an integer to [uint8_t]. *)
Definition uint8 (z : Z) : ascii := ascii_of_N (Z.to_N z).

(** The initialiser of [bytes[3]]. *)
Definition pixel_bytes (pixel : Z) : list ascii :=
  [ uint8 (Z.land (Z.shiftr pixel (8 * 0)) 255);
    uint8 (Z.land (Z.shiftr pixel (8 * 1)) 255);
    uint8 (Z.land (Z.shiftr pixel (8 * 2)) 255) ].

(** How a statement of a body guarded by [return_defer] ends. *)
Inductive flow (S : Type) : Type :=
  | Continue (s : S)
  | Defer (value : Z) (s : S).

Arguments Continue {S} s.
Arguments Defer {S} value s.

(** [return_defer(value)]: set [result] and jump to the [defer] label. *)
Definition return_defer {S : Type} (value : Z) (s : S) : result (flow S) :=
  Ok (Defer value s).

(** A [for] loop whose body may leave through [return_defer]. *)
Fixpoint for_loop_defer {S : Type} (fuel : nat) (cond : Z -> bool) (next : Z -> Z)
    (body : Z -> S -> result (flow S)) (i : Z) (s : S) : result (flow S) :=
  match fuel with
  | O => OutOfFuel
  | Datatypes.S fuel' =>
      if cond i
      then
        r ← body i s;
        match r with
        | Continue s' => for_loop_defer fuel' cond next body (next i) s'
        | Defer value s' => Ok (Defer value s')
        end
      else Ok (Continue s)
  end.

(** The result of [fclose] is not read (line 72). *)
Definition opencad_save_to_ppm_file (env : io_env) (fuel : nat) (pixels : list Z)
    (width height : Z) (w : world) : result (Z * world) :=
  let result := 0 in
  let '(f, w) := fopen env w in
  r ← (if negb f then return_defer (errno w) w
       else
         let w := fwrite env (ppm_header width height) w in
         if ferror w then return_defer (errno w) w
         else
           for_loop_defer fuel (fun i => i <? size_mul width height) size_succ
             (fun i w =>
                pixel ← load pixels i;
                let bytes := pixel_bytes pixel in
                let w := fwrite env bytes w in
                if ferror w then return_defer (errno w) w
                else Ok (Continue w))
             0 w);
  let '(result, w) :=
    match r with
    | Continue w => (result, w)
    | Defer value w => (value, w)
    end in
  let w := if f then snd (fclose env w) else w in
  Ok (result, w).

(** The 2x2 buffer of the specification's round trip: red, green, blue and
    grey, each with full alpha ([0xFF0000FF], [0xFF00FF00], [0xFFFF0000],
    [0xFF808080]). *)
Definition rgba_2x2 : list Z := [4278190335; 4278255360; 4294901760; 4286611584].

(** A system on which every call succeeds; the stream is fully buffered. *)
Definition io_ok : io_env :=
  {| fopen_fails := None; buffered := fun _ => true; write_fails := fun _ => None |}.

(** A process that has had no error yet and a path with no file. *)
Definition world0 : world := {| errno := 0; disk := None |}.

(** An operating system whose failing calls set [errno] to a nonzero code,
    as POSIX has it. *)
Definition posix (env : io_env) : Prop :=
  (forall e, fopen_fails env = Some e -> e <> 0) /\
  (forall k e n, write_fails env k = Some (e, n) -> e <> 0).

(** ** The example program ([example.c]) *)

(** C's [%] on [int]: the remainder of the truncated division. *)
Definition int_rem (a b : Z) : Z := int_wrap (Z.rem a b).

Definition WIDTH : Z := 800.
Definition HEIGHT : Z := 600.
Definition COLS : Z := int_mul 8 2.
Definition ROWS : Z := int_mul 6 2.
Definition CELL_WIDTH : Z := int_div WIDTH COLS.
Definition CELL_HEIGHT : Z := int_div HEIGHT ROWS.
(** [0xFF202020] and [0xFF2020FF]. *)
Definition BACKGROUND_COLOR : Z := 4280295456.
Definition FOREGROUND_COLOR : Z := 4280295679.

(** [checker_example], on the static buffer [pixels] and the file
    [checker.ppm]: the result, the buffer, the file system and what was
    printed on [stderr].  [strerror] is the C library's table of error
    messages. *)
Definition checker_example (strerror : Z -> list ascii) (env : io_env) (fuel : nat)
    (pixels : list Z) (w : world) : result (bool * list Z * world * list ascii) :=
  pixels ← opencad_fill fuel pixels WIDTH HEIGHT BACKGROUND_COLOR;
  pixels ← for_loop fuel (fun y => y <? ROWS) int_succ
    (fun y pixels =>
       for_loop fuel (fun x => x <? COLS) int_succ
         (fun x pixels =>
            let color := BACKGROUND_COLOR in
            let color := if int_rem (int_add x y) 2 =? 0 then 4280295679 else color in
            opencad_fill_rect fuel pixels WIDTH HEIGHT
              (int_mul x CELL_WIDTH) (int_mul y CELL_HEIGHT)
              (size_of_int CELL_WIDTH) (size_of_int CELL_HEIGHT) color)
         0 pixels)
    0 pixels;
  r ← opencad_save_to_ppm_file env fuel pixels WIDTH HEIGHT w;
  let '(err, w) := r in
  if negb (err =? 0) then
    Ok (false, pixels, w,
        list_ascii_of_string "ERROR: could not save file checker.ppm: " ++
        strerror (errno w) ++ [newline])
  else Ok (true, pixels, w, []).

(** * Vocabulary of the properties *)

(** [r'] is at least as defined as [r]. *)
Definition le_result {A : Type} (r r' : result A) : Prop :=
  forall a, r = Ok a -> r' = Ok a.

(** [f] succeeds on every buffer of [n] elements, keeps the length, sets
    the elements selected by [P] to [color] and leaves the others. *)
Definition paints (n : nat) (color : Z) (P : nat -> bool)
    (f : list Z -> result (list Z)) : Prop :=
  forall s, length s = n ->
    exists s', f s = Ok s' /\ length s' = n /\
      forall i v, s !! i = Some v -> s' !! i = Some (if P i then color else v).

(** The elements [fill_rect] writes, as the code selects them. *)
Definition rect_mask (pw ph x0 y0 w h : Z) (i : nat) : bool :=
  existsb (fun dy =>
    let y := int_add y0 dy in
    (0 <=? y) && (y <? int_of_size ph) &&
    existsb (fun dx =>
      let x := int_add x0 dx in
      (0 <=? x) && (x <? int_of_size pw) && Nat.eqb i (pixel_index pw x y))
      (seqZ 0 (int_of_size w)))
    (seqZ 0 (int_of_size h)).

(** The elements [fill_circle] writes, as the code selects them. *)
Definition circle_mask (pw ph cx cy r : Z) (i : nat) : bool :=
  let x1 := int_sub cx r in
  let y1 := int_sub cy r in
  let x2 := int_add cx r in
  let y2 := int_add cy r in
  existsb (fun y =>
    (0 <=? y) && (y <? int_of_size ph) &&
    existsb (fun x =>
      (0 <=? x) && (x <? int_of_size pw) &&
      (let dx := int_sub x cx in
       let dy := int_sub y cy in
       (int_add (int_mul dx dx) (int_mul dy dy) <=? int_mul r r) &&
       Nat.eqb i (pixel_index pw x y)))
      (seqZ x1 (x2 - x1 + 1)))
    (seqZ y1 (y2 - y1 + 1)).

(** The rows a vertical line writes in its column, as the code selects
    them. *)
Definition column_mask (pw ph x lo hi : Z) (i : nat) : bool :=
  existsb (fun y =>
    (0 <=? y) && (y <? int_of_size ph) && Nat.eqb i (pixel_index pw x y))
    (seqZ lo (hi - lo + 1)).

(** The row of the line in column [x] as the code computes it. *)
Definition code_row (dx dy c x : Z) : Z :=
  int_add (int_div (int_mul dy x) dx) c.

(** The elements a non-vertical line writes, as the code selects them. *)
Definition line_mask (pw ph x1 y1 x2 y2 : Z) (i : nat) : bool :=
  let dx := int_sub x2 x1 in
  let dy := int_sub y2 y1 in
  let c := int_sub y1 (int_div (int_mul dy x1) dx) in
  existsb (fun x =>
    (0 <=? x) && (x <? int_of_size pw) &&
    (let sy1 := code_row dx dy c x in
     let sy2 := code_row dx dy c (int_add x 1) in
     column_mask pw ph x (Z.min sy1 sy2) (Z.max sy1 sy2) i))
    (seqZ (Z.min x1 x2) (Z.max x1 x2 - Z.min x1 x2 + 1)).

(** The row of the line in column [x] as the specification words it:
    [(dy*x)/dx + c] with [c = y1 - (dy*x1)/dx], both quotients truncated,
    over the integers. *)
Definition line_row (x1 y1 x2 y2 x : Z) : Z :=
  let dx := x2 - x1 in
  let dy := y2 - y1 in
  let c := y1 - Z.quot (dy * x1) dx in
  Z.quot (dy * x) dx + c.

(** A run that made no access outside a buffer of [n] elements. *)
Definition safe (n : nat) (r : result (list Z)) : Prop :=
  match r with
  | Ok s => length s = n
  | OutOfFuel => True
  | OutOfBounds => False
  end.

(** A disk that fills up while the third pixel is written, behind a stream
    that transmits every write at once. *)
Definition io_disk_full : io_env :=
  {| fopen_fails := None;
     buffered := fun _ => false;
     write_fails := fun k => if Nat.eqb k 3 then Some (28, 1%nat) else None |}.

(** A device with no space left ([ENOSPC] is 28) behind a fully buffered
    stream: the image fits in the buffer, so nothing is transmitted before
    [fclose]. *)
Definition io_device_full : io_env :=
  {| fopen_fails := None;
     buffered := fun _ => true;
     write_fails := fun _ => Some (28, 0%nat) |}.

(** A run from buffer [s] that, if it returned, kept the length and left
    every element as it was or set it to [color]. *)
Definition repaints (color : Z) (s : list Z) (r : result (list Z)) : Prop :=
  match r with
  | Ok s' =>
      length s' = length s /\
      forall i, s' !! i = s !! i \/ s' !! i = Some color
  | _ => True
  end.

(** The pixels of the line from [(x1, y1)] to [(x2, y2)]: a column span
    for a vertical line, otherwise in each column between the ends the rows
    between [line_row x] and [line_row (x + 1)]. *)
Definition line_covers (x1 y1 x2 y2 x y : Z) : Prop :=
  if decide (x1 = x2)
  then x = x1 /\ Z.min y1 y2 <= y <= Z.max y1 y2
  else Z.min x1 x2 <= x <= Z.max x1 x2 /\
       Z.min (line_row x1 y1 x2 y2 x) (line_row x1 y1 x2 y2 (x + 1)) <= y <=
       Z.max (line_row x1 y1 x2 y2 x) (line_row x1 y1 x2 y2 (x + 1)).

(** A list with the positions of its elements, counted from [k]. *)
Fixpoint numbered {A : Type} (k : nat) (l : list A) : list (nat * A) :=
  match l with
  | [] => []
  | a :: l => (k, a) :: numbered (S k) l
  end.

(** The writes that [save_to_ppm_file] makes when none is reported to
    fail: the header, then the three bytes of each pixel. *)
Definition ppm_writes (pixels : list Z) (width height : Z) : list (list ascii) :=
  ppm_header width height :: map pixel_bytes pixels.

(** What the device does to the first [n] writes of the run, transmitted
    in order. *)
Definition device (env : io_env) (pixels : list Z) (width height : Z) (n : nat)
    : list ascii * option Z :=
  transmit env (numbered 0 (take n (ppm_writes pixels width height))) [].

(** The buffer of [checker_example] when the cells before cell [(cx, cy)],
    in row-major order, have been filled: 50x50 cells, the foreground
    colour where column plus row of the cell is even. *)
Definition checker_done (cx cy : Z) (s : list Z) : Prop :=
  Z.of_nat (length s) = 480000 /\
  forall px py, 0 <= px < 800 -> 0 <= py < 600 ->
    s !! pixel_index 800 px py =
      Some (if ((py / 50 <? cy) || ((py / 50 =? cy) && (px / 50 <? cx))) &&
               Z.even (px / 50 + py / 50)
            then 4280295679 else 4280295456).

(** * Properties *)

(** ** Machine arithmetic *)

Lemma int_wrap_id z : is_int z -> int_wrap z = z.
Proof.
  unfold is_int, INT_MIN, INT_MAX, int_wrap. intros Hz.
  rewrite Z.mod_small; lia.
Qed.

Lemma int_wrap_range z : is_int (int_wrap z).
Proof.
  unfold is_int, INT_MIN, INT_MAX, int_wrap.
  pose proof (Z.mod_pos_bound (z + 2147483648) 4294967296). lia.
Qed.

Lemma size_wrap_id z : is_size z -> size_wrap z = z.
Proof.
  unfold is_size, SIZE_MAX, size_wrap. intros Hz.
  rewrite Z.mod_small; lia.
Qed.

(** The cast to [int] never enlarges a size. *)
Lemma int_of_size_le n : 0 <= n -> int_of_size n <= n.
Proof.
  intros Hn. unfold int_of_size, int_wrap.
  pose proof (Z.mod_le (n + 2147483648) 4294967296). lia.
Qed.

Lemma int_add_exact a b : is_int (a + b) -> int_add a b = a + b.
Proof. apply int_wrap_id. Qed.

Lemma int_sub_exact a b : is_int (a - b) -> int_sub a b = a - b.
Proof. apply int_wrap_id. Qed.

Lemma int_mul_exact a b : is_int (a * b) -> int_mul a b = a * b.
Proof. apply int_wrap_id. Qed.

(** Adding a non-negative [int] either is exact or wraps below zero. *)
Lemma int_add_nonneg a b :
  is_int a -> 0 <= b <= INT_MAX -> 0 <= int_add a b -> int_add a b = a + b.
Proof.
  unfold is_int, INT_MIN, INT_MAX, int_add, int_wrap. intros Ha Hb.
  Z.div_mod_to_equations. lia.
Qed.

(** A point of a disk lies in the disk's bounding box. *)
Lemma square_bound a b r : 0 <= r -> a * a + b * b <= r * r -> - r <= a <= r.
Proof.
  intros Hr H. assert (0 <= b * b) by nia.
  split; apply Z.nlt_ge; intros Hlt; nia.
Qed.

Lemma int_div_exact a b : is_int (Z.quot a b) -> int_div a b = Z.quot a b.
Proof. apply int_wrap_id. Qed.

(** A truncated quotient is no larger than its dividend. *)
Lemma quot_abs_le a d : d <> 0 -> Z.abs (Z.quot a d) <= Z.abs a.
Proof.
  intros Hd. pose proof (Z.quot_rem' a d) as Hq.
  pose proof (Z.rem_bound_abs a d Hd) as Hr.
  pose proof (Z.rem_sign_mul a d Hd) as Hs.
  nia.
Qed.

(** Two truncated quotients by the same divisor differ by little more than
    their dividends do. *)
Lemma quot_diff_bound a b d E :
  d <> 0 -> 0 <= E -> Z.abs (a - b) <= E * (Z.abs d + 1) ->
  Z.abs (Z.quot a d - Z.quot b d) <= 2 * E + 2.
Proof.
  intros Hd HE Hab.
  pose proof (Z.quot_rem' a d) as Ha. pose proof (Z.quot_rem' b d) as Hb.
  pose proof (Z.rem_bound_abs a d Hd) as Hra.
  pose proof (Z.rem_bound_abs b d Hd) as Hrb.
  set (qa := Z.quot a d) in *. set (qb := Z.quot b d) in *.
  set (ra := Z.rem a d) in *. set (rb := Z.rem b d) in *.
  assert (H : d * (qa - qb) = (a - b) - (ra - rb)) by lia.
  assert (Hprod : Z.abs d * Z.abs (qa - qb) <= E * (Z.abs d + 1) + 2 * Z.abs d).
  { rewrite <- Z.abs_mul, H. lia. }
  assert (HD : 1 <= Z.abs d) by lia.
  assert (HQ : 0 <= Z.abs (qa - qb)) by lia.
  generalize dependent (Z.abs (qa - qb)). generalize dependent (Z.abs d).
  intros D _ _ HD Q HQ Hprod. nia.
Qed.

Lemma existsb_seqZ (f : Z -> bool) lo len :
  existsb f (seqZ lo len) = true <-> exists x, lo <= x < lo + len /\ f x = true.
Proof.
  rewrite existsb_exists. split.
  - intros (x & Hin & Hx). exists x. split; [|done].
    apply list_elem_of_In, elem_of_seqZ in Hin. lia.
  - intros (x & Hr & Hx). exists x. split; [|done].
    apply list_elem_of_In, elem_of_seqZ. lia.
Qed.

(** ** Fuel *)

Lemma le_result_refl {A : Type} (r : result A) : le_result r r.
Proof. intros a H. exact H. Qed.

(** More fuel never changes a result that was reached. *)
Lemma for_loop_mono {S : Type} cond next (body body' : Z -> S -> result S) :
  (forall i s, le_result (body i s) (body' i s)) ->
  forall fuel fuel', (fuel <= fuel')%nat ->
  forall i s,
    le_result (for_loop fuel cond next body i s) (for_loop fuel' cond next body' i s).
Proof.
  intros Hbody. induction fuel as [|fuel IH]; intros fuel' Hle i s a H.
  - discriminate.
  - destruct fuel' as [|fuel']; [lia|]. simpl in *.
    destruct (cond i); [|done].
    destruct (body i s) as [s1| |] eqn:Hb; try discriminate.
    rewrite (Hbody _ _ _ Hb). simpl in *.
    apply (IH fuel' ltac:(lia) _ _ _ H).
Qed.

Lemma le_result_unique {A : Type} (run : nat -> result A) :
  (forall fuel fuel', (fuel <= fuel')%nat -> le_result (run fuel) (run fuel')) ->
  forall fuel fuel' a a', run fuel = Ok a -> run fuel' = Ok a' -> a = a'.
Proof.
  intros Hmono fuel fuel' a a' H H'.
  destruct (Nat.le_ge_cases fuel fuel') as [Hle|Hle].
  - apply (Hmono _ _ Hle) in H. congruence.
  - apply (Hmono _ _ Hle) in H'. congruence.
Qed.

(** Any bound on the number of iterations is met by some amount of fuel. *)
Lemma enough_fuel (bound : Z) : exists fuel : nat, bound < Z.of_nat fuel.
Proof. exists (Z.to_nat (bound + 1)). lia. Qed.

(** A loop whose condition holds at every value its counter takes never
    returns. *)
Lemma for_loop_diverges {S : Type} (I : Z -> Prop) (J : S -> Prop)
    cond next (body : Z -> S -> result S) :
  (forall v, I v -> cond v = true /\ I (next v)) ->
  (forall v s, I v -> J s -> exists s', body v s = Ok s' /\ J s') ->
  forall fuel i s, I i -> J s -> for_loop fuel cond next body i s = OutOfFuel.
Proof.
  intros Hcond Hbody. induction fuel as [|fuel IH]; intros i s Hi Hs; [done|].
  simpl. destruct (Hcond i Hi) as [-> Hn].
  destruct (Hbody i s Hi Hs) as (s' & -> & Hs'). simpl.
  by apply IH.
Qed.

(** ** Loops that paint *)

Section Painting.

Variable n : nat.
Variable color : Z.

Lemma paints_skip : paints n color (fun _ => false) Ok.
Proof. intros s Hs. exists s. auto. Qed.

Lemma paints_store idx :
  (Z.to_nat idx < n)%nat ->
  paints n color (fun i => Nat.eqb i (Z.to_nat idx)) (fun s => store s idx color).
Proof.
  intros Hidx s Hs. unfold store.
  destruct (Nat.ltb_spec (Z.to_nat idx) (length s)) as [_|]; [|lia].
  eexists. split; [reflexivity|]. split; [by rewrite length_insert|].
  intros i v Hi. destruct (Nat.eqb_spec i (Z.to_nat idx)) as [->|Hne].
  - apply list_lookup_insert_eq. lia.
  - rewrite list_lookup_insert_ne; auto.
Qed.

Lemma paints_ext P Q f :
  (forall i, (i < n)%nat -> P i = Q i) -> paints n color P f -> paints n color Q f.
Proof.
  intros HPQ Hf s Hs. destruct (Hf s Hs) as (s' & He & Hl & Hp).
  exists s'. repeat split; auto. intros i v Hi.
  rewrite <- HPQ; [auto|]. apply lookup_lt_Some in Hi. lia.
Qed.

Lemma paints_if (b : bool) P f :
  (b = true -> paints n color P f) ->
  paints n color (fun i => b && P i) (fun s => if b then f s else Ok s).
Proof.
  destruct b; simpl; intros Hf.
  - apply Hf. reflexivity.
  - apply paints_skip.
Qed.

(** A loop whose counter runs through [lo, lo + m) one by one. *)
Lemma paints_for cond next body (P : Z -> nat -> bool) (m : nat) :
  forall lo fuel,
    (forall k, 0 <= k < Z.of_nat m ->
       cond (lo + k) = true /\ next (lo + k) = lo + k + 1) ->
    cond (lo + Z.of_nat m) = false ->
    (forall k, 0 <= k < Z.of_nat m -> paints n color (P (lo + k)) (body (lo + k))) ->
    (m < fuel)%nat ->
    paints n color (fun i => existsb (fun x => P x i) (seqZ lo (Z.of_nat m)))
      (for_loop fuel cond next body lo).
Proof.
  induction m as [|m IH]; intros lo fuel Hrun Hstop Hbody Hfuel s Hs.
  - destruct fuel as [|fuel]; [lia|]. simpl.
    replace (lo + Z.of_nat 0) with lo in Hstop by lia. rewrite Hstop.
    exists s. auto.
  - destruct fuel as [|fuel]; [lia|]. simpl.
    destruct (Hrun 0 ltac:(lia)) as [Hc Hn].
    replace (lo + 0) with lo in * by lia. rewrite Hc.
    destruct (Hbody 0 ltac:(lia) s Hs) as (s1 & He1 & Hl1 & Hp1).
    replace (lo + 0) with lo in * by lia. rewrite He1. simpl.
    rewrite Hn.
    destruct (IH (lo + 1) fuel) with (s := s1) as (s2 & He2 & Hl2 & Hp2); auto.
    + intros k Hk. replace (lo + 1 + k) with (lo + (k + 1)) by lia.
      apply Hrun. lia.
    + replace (lo + 1 + Z.of_nat m) with (lo + Z.of_nat (S m)) by lia. done.
    + intros k Hk. replace (lo + 1 + k) with (lo + (k + 1)) by lia.
      apply Hbody. lia.
    + lia.
    + exists s2. repeat split; auto. intros i v Hi.
      rewrite (Hp2 i _ (Hp1 i v Hi)).
      replace (Z.of_nat (S m)) with (Z.succ (Z.of_nat m)) by lia.
      rewrite (seqZ_cons lo) by lia. simpl.
      replace (Z.succ lo) with (lo + 1) by lia.
      replace (Z.pred (Z.succ (Z.of_nat m))) with (Z.of_nat m) by lia.
      destruct (P lo i), (existsb _ _); reflexivity.
Qed.

(** [for (int v = lo; v <= hi; ++v)] with [hi] below [INT_MAX]. *)
Lemma paints_for_le body P lo hi fuel :
  is_int lo -> hi < INT_MAX ->
  (forall v, lo <= v <= hi -> paints n color (P v) (body v)) ->
  Z.max 0 (hi - lo + 1) < Z.of_nat fuel ->
  paints n color (fun i => existsb (fun x => P x i) (seqZ lo (hi - lo + 1)))
    (for_loop fuel (fun v => v <=? hi) int_succ body lo).
Proof.
  intros Hlo Hhi Hbody Hfuel.
  assert (Hm : seqZ lo (hi - lo + 1) = seqZ lo (Z.of_nat (Z.to_nat (hi - lo + 1)))).
  { unfold seqZ. by rewrite Nat2Z.id. }
  rewrite Hm. unfold is_int, INT_MIN, INT_MAX in *.
  apply paints_for; auto.
  - intros k Hk. split; [apply Z.leb_le; lia|].
    unfold int_succ, int_add. apply int_wrap_id.
    unfold is_int, INT_MIN, INT_MAX. lia.
  - apply Z.leb_gt. lia.
  - intros k Hk. apply Hbody. lia.
  - lia.
Qed.

(** [for (int d = 0; d < n; ++d)]. *)
Lemma paints_for_lt body P bound fuel :
  bound <= INT_MAX ->
  (forall v, 0 <= v < bound -> paints n color (P v) (body v)) ->
  Z.max 0 bound < Z.of_nat fuel ->
  paints n color (fun i => existsb (fun x => P x i) (seqZ 0 bound))
    (for_loop fuel (fun v => v <? bound) int_succ body 0).
Proof.
  intros Hb Hbody Hfuel.
  assert (Hm : seqZ 0 bound = seqZ 0 (Z.of_nat (Z.to_nat bound))).
  { unfold seqZ. by rewrite Nat2Z.id. }
  rewrite Hm. unfold INT_MAX in *.
  apply paints_for; auto.
  - intros k Hk. split; [apply Z.ltb_lt; lia|].
    unfold int_succ, int_add. apply int_wrap_id.
    unfold is_int, INT_MIN, INT_MAX. lia.
  - apply Z.ltb_ge. lia.
  - intros k Hk. apply Hbody. lia.
  - lia.
Qed.

End Painting.

(** ** Pixels and their indices *)

Lemma pixel_address pixels pw ph x y :
  buffer_ok pixels pw ph -> 0 <= x < pw -> 0 <= y < ph ->
  size_add (size_mul (size_of_int y) pw) (size_of_int x) = y * pw + x /\
  (pixel_index pw x y < length pixels)%nat.
Proof.
  intros (Hw & Hh & Hlen & Hmax) Hx Hy.
  assert (Hlt : y * pw + x < pw * ph) by nia.
  assert (Hy0 : 0 <= y * pw) by nia.
  unfold size_add, size_mul, size_of_int, pixel_index.
  rewrite (size_wrap_id y) by (unfold is_size; nia).
  rewrite (size_wrap_id x) by (unfold is_size; nia).
  rewrite (size_wrap_id (y * pw)) by (unfold is_size; nia).
  rewrite size_wrap_id by (unfold is_size; nia).
  split; [reflexivity | lia].
Qed.

Lemma pixel_index_inj pw x y x' y' :
  0 <= x < pw -> 0 <= x' < pw -> 0 <= y -> 0 <= y' ->
  pixel_index pw x y = pixel_index pw x' y' -> x = x' /\ y = y'.
Proof.
  unfold pixel_index. intros Hx Hx' Hy Hy' He.
  assert (H : y * pw + x = y' * pw + x') by nia.
  assert (y = y') by nia. subst y'. lia.
Qed.

(** Every element of the buffer is a pixel. *)
Lemma pixel_of_index pixels pw ph i :
  buffer_ok pixels pw ph -> (i < length pixels)%nat ->
  exists x y, 0 <= x < pw /\ 0 <= y < ph /\ i = pixel_index pw x y.
Proof.
  intros (Hw & Hh & Hlen & Hmax) Hi.
  assert (Hpw : 0 < pw) by nia.
  exists (Z.of_nat i mod pw), (Z.of_nat i / pw).
  pose proof (Z.mod_pos_bound (Z.of_nat i) pw Hpw) as Hm.
  pose proof (Z.div_mod (Z.of_nat i) pw ltac:(lia)) as Hd.
  assert (0 <= Z.of_nat i / pw) by (apply Z.div_pos; lia).
  split; [lia|]. split.
  - split; [lia|]. apply Z.div_lt_upper_bound; lia.
  - unfold pixel_index. lia.
Qed.

(** The guarded store at the heart of every primitive. *)
Lemma paints_pixel pixels pw ph color (b : bool) x y :
  buffer_ok pixels pw ph ->
  (b = true -> 0 <= x < pw /\ 0 <= y < ph) ->
  paints (length pixels) color (fun i => b && Nat.eqb i (pixel_index pw x y))
    (fun s =>
       if b
       then store s (size_add (size_mul (size_of_int y) pw) (size_of_int x)) color
       else Ok s).
Proof.
  intros Hbuf Hb. apply paints_if. intros Htrue.
  destruct (Hb Htrue) as [Hx Hy].
  destruct (pixel_address pixels pw ph x y Hbuf Hx Hy) as [Ha Hlt].
  rewrite Ha. apply paints_store. exact Hlt.
Qed.

(** A buffer repainted nowhere is the same buffer. *)
Lemma paints_nothing (s s' : list Z) color (P : nat -> bool) :
  length s' = length s ->
  (forall i v, s !! i = Some v -> s' !! i = Some (if P i then color else v)) ->
  (forall i, (i < length s)%nat -> P i = false) ->
  s' = s.
Proof.
  intros Hl Hp Hnone. apply list_eq. intros i.
  destruct (s !! i) as [v|] eqn:Hi.
  - rewrite (Hp i v Hi), Hnone; [done|]. by apply lookup_lt_Some in Hi.
  - apply lookup_ge_None. apply lookup_ge_None in Hi. lia.
Qed.

(** ** [fill_rect] *)

Lemma fill_rect_paints fuel pixels pw ph x0 y0 w h color :
  buffer_ok pixels pw ph ->
  Z.max 0 (Z.max (int_of_size w) (int_of_size h)) < Z.of_nat fuel ->
  paints (length pixels) color (rect_mask pw ph x0 y0 w h)
    (fun s => opencad_fill_rect fuel s pw ph x0 y0 w h color).
Proof.
  intros Hbuf Hfuel. unfold opencad_fill_rect, rect_mask.
  pose proof (int_wrap_range w) as Hw. pose proof (int_wrap_range h) as Hh.
  pose proof Hbuf as (Hpw & Hph & _).
  apply paints_for_lt; [apply Hh | | unfold int_of_size in *; lia].
  intros dy Hdy. cbv zeta.
  apply (paints_if _ _ ((0 <=? int_add y0 dy) && (int_add y0 dy <? int_of_size ph))).
  intros Hgy. apply andb_true_iff in Hgy as [Hy1 Hy2].
  apply Z.leb_le in Hy1. apply Z.ltb_lt in Hy2.
  apply paints_for_lt; [apply Hw | | unfold int_of_size in *; lia].
  intros dx Hdx. cbv zeta.
  apply (paints_pixel pixels pw ph color
           ((0 <=? int_add x0 dx) && (int_add x0 dx <? int_of_size pw))); [done|].
  intros Hgx. apply andb_true_iff in Hgx as [Hx1 Hx2].
  apply Z.leb_le in Hx1. apply Z.ltb_lt in Hx2.
  pose proof (int_of_size_le pw Hpw). pose proof (int_of_size_le ph Hph). lia.
Qed.

Lemma rect_mask_spec pw ph x0 y0 w h i :
  rect_mask pw ph x0 y0 w h i = true <->
  exists dx dy,
    0 <= dx < int_of_size w /\ 0 <= dy < int_of_size h /\
    0 <= int_add x0 dx < int_of_size pw /\ 0 <= int_add y0 dy < int_of_size ph /\
    i = pixel_index pw (int_add x0 dx) (int_add y0 dy).
Proof.
  unfold rect_mask. rewrite existsb_seqZ. split.
  - intros (dy & Hdy & H). cbv zeta in H.
    rewrite !andb_true_iff, existsb_seqZ in H.
    destruct H as ([Hy1 Hy2] & dx & Hdx & H). cbv zeta in H.
    rewrite !andb_true_iff in H. destruct H as ([Hx1 Hx2] & Hi).
    apply Z.leb_le in Hy1, Hx1. apply Z.ltb_lt in Hy2, Hx2.
    apply Nat.eqb_eq in Hi. exists dx, dy. repeat split; auto; lia.
  - intros (dx & dy & Hdx & Hdy & Hx & Hy & Hi). exists dy.
    split; [lia|]. cbv zeta. rewrite !andb_true_iff, existsb_seqZ.
    repeat split; [apply Z.leb_le; lia | apply Z.ltb_lt; lia |].
    exists dx. split; [lia|]. cbv zeta. rewrite !andb_true_iff.
    repeat split; [apply Z.leb_le; lia | apply Z.ltb_lt; lia |].
    by apply Nat.eqb_eq.
Qed.

(** What [fill_rect] writes lies in the rectangle. *)
Lemma rect_mask_inside pw ph x0 y0 w h x y :
  is_int x0 -> is_int y0 -> 0 <= w -> 0 <= h -> 0 <= pw -> 0 <= ph ->
  0 <= x < pw -> 0 <= y < ph ->
  rect_mask pw ph x0 y0 w h (pixel_index pw x y) = true ->
  x0 <= x < x0 + w /\ y0 <= y < y0 + h.
Proof.
  intros Hx0 Hy0 Hw Hh Hpw Hph Hx Hy Hm.
  apply rect_mask_spec in Hm as (dx & dy & Hdx & Hdy & Hgx & Hgy & Hi).
  pose proof (int_of_size_le w Hw). pose proof (int_of_size_le h Hh).
  pose proof (int_of_size_le pw Hpw). pose proof (int_of_size_le ph Hph).
  pose proof (int_wrap_range w) as Hiw. pose proof (int_wrap_range h) as Hih.
  unfold is_int, int_of_size in *.
  assert (Hex : int_add x0 dx = x0 + dx)
    by (apply int_add_nonneg; unfold is_int; lia).
  assert (Hey : int_add y0 dy = y0 + dy)
    by (apply int_add_nonneg; unfold is_int; lia).
  apply pixel_index_inj in Hi as [-> ->]; try lia.
Qed.

(** Within [int] range, [fill_rect] writes the whole clipped rectangle. *)
Lemma rect_mask_covers pw ph x0 y0 w h x y :
  pw <= INT_MAX -> ph <= INT_MAX -> 0 <= w <= INT_MAX -> 0 <= h <= INT_MAX ->
  0 <= x < pw -> 0 <= y < ph ->
  x0 <= x < x0 + w -> y0 <= y < y0 + h ->
  rect_mask pw ph x0 y0 w h (pixel_index pw x y) = true.
Proof.
  intros Hpw Hph Hw Hh Hx Hy Hrx Hry. apply rect_mask_spec.
  exists (x - x0), (y - y0).
  unfold int_of_size.
  rewrite (int_wrap_id w), (int_wrap_id h), (int_wrap_id pw), (int_wrap_id ph)
    by (unfold is_int, INT_MIN, INT_MAX in *; lia).
  rewrite !int_add_exact by (unfold is_int, INT_MIN, INT_MAX in *; lia).
  replace (x0 + (x - x0)) with x by lia.
  replace (y0 + (y - y0)) with y by lia.
  repeat split; lia.
Qed.

(** C6 (amended).  [fill_rect] reports no error and keeps the length of
    the buffer; it changes no pixel outside the rectangle
    [[x0, x0+w) x [y0, y0+h)], so a rectangle that misses the buffer is a
    no-op; and when the buffer's and the rectangle's width and height fit in
    an [int] (what the code casts them to), every pixel of the rectangle
    inside the buffer is set to the colour. *)
Theorem fill_rect_clips fuel pixels pw ph x0 y0 w h color :
  buffer_ok pixels pw ph -> is_int x0 -> is_int y0 -> 0 <= w -> 0 <= h ->
  Z.max w h < Z.of_nat fuel ->
  exists pixels',
    opencad_fill_rect fuel pixels pw ph x0 y0 w h color = Ok pixels' /\
    length pixels' = length pixels /\
    (forall x y, 0 <= x < pw -> 0 <= y < ph ->
       ~ (x0 <= x < x0 + w /\ y0 <= y < y0 + h) ->
       pixels' !! pixel_index pw x y = pixels !! pixel_index pw x y) /\
    ((forall x y, 0 <= x < pw -> 0 <= y < ph ->
        ~ (x0 <= x < x0 + w /\ y0 <= y < y0 + h)) ->
     pixels' = pixels) /\
    (pw <= INT_MAX -> ph <= INT_MAX -> w <= INT_MAX -> h <= INT_MAX ->
     forall x y, 0 <= x < pw -> 0 <= y < ph ->
       x0 <= x < x0 + w /\ y0 <= y < y0 + h ->
       pixels' !! pixel_index pw x y = Some color).
Proof.
  intros Hbuf Hx0 Hy0 Hw Hh Hfuel.
  pose proof Hbuf as (Hpw & Hph & Hlen & Hmax).
  pose proof (int_of_size_le w Hw). pose proof (int_of_size_le h Hh).
  destruct (fill_rect_paints fuel pixels pw ph x0 y0 w h color Hbuf)
    with (s := pixels) as (pixels' & Hrun & Hl & Hp); [lia | done |].
  assert (Hout : forall x y, 0 <= x < pw -> 0 <= y < ph ->
            ~ (x0 <= x < x0 + w /\ y0 <= y < y0 + h) ->
            rect_mask pw ph x0 y0 w h (pixel_index pw x y) = false).
  { intros x y Hx Hy Hnot. apply not_true_is_false. intros Hm.
    apply Hnot. by apply rect_mask_inside with pw ph. }
  exists pixels'. split; [done|]. split; [done|]. split; [|split].
  - intros x y Hx Hy Hnot.
    destruct (pixel_address pixels pw ph x y Hbuf Hx Hy) as [_ Hlt].
    destruct (lookup_lt_is_Some_2 pixels _ Hlt) as [v Hv].
    rewrite (Hp _ _ Hv), Hv, Hout; auto.
  - intros Hdisj. apply (paints_nothing pixels pixels' color _ Hl Hp).
    intros i Hi.
    destruct (pixel_of_index pixels pw ph i Hbuf Hi) as (x & y & Hx & Hy & ->).
    apply Hout; auto.
  - intros Bpw Bph Bw Bh x y Hx Hy [Hrx Hry].
    destruct (pixel_address pixels pw ph x y Hbuf Hx Hy) as [_ Hlt].
    destruct (lookup_lt_is_Some_2 pixels _ Hlt) as [v Hv].
    rewrite (Hp _ _ Hv), rect_mask_covers; auto.
Qed.

Lemma fill_rect_clips_witness :
  buffer_ok (replicate 12 0) 4 3 /\ is_int (-1) /\ is_int 1 /\
  exists pixels',
    opencad_fill_rect 6 (replicate 12 0) 4 3 (-1) 1 3 5 7 = Ok pixels' /\
    length pixels' = length (replicate 12 0 : list Z) /\
    (forall x y, 0 <= x < 4 -> 0 <= y < 3 ->
       ~ (-1 <= x < -1 + 3 /\ 1 <= y < 1 + 5) ->
       pixels' !! pixel_index 4 x y = replicate 12 0 !! pixel_index 4 x y) /\
    ((forall x y, 0 <= x < 4 -> 0 <= y < 3 ->
        ~ (-1 <= x < -1 + 3 /\ 1 <= y < 1 + 5)) ->
     pixels' = replicate 12 0) /\
    (4 <= INT_MAX -> 3 <= INT_MAX -> 3 <= INT_MAX -> 5 <= INT_MAX ->
     forall x y, 0 <= x < 4 -> 0 <= y < 3 ->
       -1 <= x < -1 + 3 /\ 1 <= y < 1 + 5 ->
       pixels' !! pixel_index 4 x y = Some 7).
Proof.
  assert (Hb : buffer_ok (replicate 12 0) 4 3)
    by (unfold buffer_ok, SIZE_MAX; simpl; lia).
  assert (H1 : is_int (-1)) by (unfold is_int, INT_MIN, INT_MAX; lia).
  assert (H2 : is_int 1) by (unfold is_int, INT_MIN, INT_MAX; lia).
  split; [exact Hb|]. split; [exact H1|]. split; [exact H2|].
  apply (fill_rect_clips 6 (replicate 12 0) 4 3 (-1) 1 3 5 7 Hb H1 H2); lia.
Defined.

(** C6 as stated fails: a rectangle of height [2^32] covers the only pixel
    of a 1x1 buffer, yet [(int) h] is [0] and nothing is drawn. *)
Lemma fill_rect_clips_counterexample :
  buffer_ok [0] 1 1 /\
  (0 <= 0 < 0 + 1 /\ 0 <= 0 < 0 + 4294967296) /\
  (forall fuel, opencad_fill_rect (S fuel) [0] 1 1 0 0 1 4294967296 7 = Ok [0]) /\
  [0] !! pixel_index 1 0 0 <> Some 7.
Proof.
  split; [unfold buffer_ok, SIZE_MAX; simpl; lia|].
  split; [lia|]. split; [intros fuel; reflexivity|].
  vm_compute. congruence.
Qed.

(** ** [fill_circle] *)

Lemma fill_circle_paints fuel pixels pw ph cx cy r color :
  buffer_ok pixels pw ph ->
  int_add cx r < INT_MAX -> int_add cy r < INT_MAX ->
  Z.max 0 (int_add cx r - int_sub cx r + 1) < Z.of_nat fuel ->
  Z.max 0 (int_add cy r - int_sub cy r + 1) < Z.of_nat fuel ->
  paints (length pixels) color (circle_mask pw ph cx cy r)
    (fun s => opencad_fill_circle fuel s pw ph cx cy r color).
Proof.
  intros Hbuf Hx2 Hy2 Hfx Hfy. unfold opencad_fill_circle, circle_mask.
  pose proof Hbuf as (Hpw & Hph & _). cbv zeta.
  apply paints_for_le; [apply int_wrap_range | done | | done].
  intros y _.
  apply (paints_if _ _ ((0 <=? y) && (y <? int_of_size ph))).
  intros Hgy. apply andb_true_iff in Hgy as [Hy1 Hy].
  apply Z.leb_le in Hy1. apply Z.ltb_lt in Hy.
  apply paints_for_le; [apply int_wrap_range | done | | done].
  intros x _.
  apply (paints_if _ _ ((0 <=? x) && (x <? int_of_size pw))).
  intros Hgx. apply andb_true_iff in Hgx as [Hx1 Hx].
  apply Z.leb_le in Hx1. apply Z.ltb_lt in Hx.
  apply (paints_pixel pixels pw ph color); [done|]. intros _.
  pose proof (int_of_size_le pw Hpw). pose proof (int_of_size_le ph Hph). lia.
Qed.

Lemma circle_mask_spec pw ph cx cy r i :
  circle_mask pw ph cx cy r i = true <->
  exists x y,
    int_sub cx r <= x <= int_add cx r /\ int_sub cy r <= y <= int_add cy r /\
    0 <= x < int_of_size pw /\ 0 <= y < int_of_size ph /\
    int_add (int_mul (int_sub x cx) (int_sub x cx))
            (int_mul (int_sub y cy) (int_sub y cy)) <= int_mul r r /\
    i = pixel_index pw x y.
Proof.
  unfold circle_mask. cbv zeta. rewrite existsb_seqZ. split.
  - intros (y & Hy & H).
    rewrite !andb_true_iff, existsb_seqZ in H.
    destruct H as ([Hy1 Hy2] & x & Hx & H).
    rewrite !andb_true_iff in H. destruct H as ([Hx1 Hx2] & Hc & Hi).
    apply Z.leb_le in Hy1, Hx1, Hc. apply Z.ltb_lt in Hy2, Hx2.
    apply Nat.eqb_eq in Hi. exists x, y. repeat split; auto; lia.
  - intros (x & y & Hx & Hy & Hgx & Hgy & Hc & Hi). exists y.
    split; [lia|]. rewrite !andb_true_iff, existsb_seqZ.
    repeat split; [apply Z.leb_le; lia | apply Z.ltb_lt; lia |].
    exists x. split; [lia|]. rewrite !andb_true_iff.
    repeat split; [apply Z.leb_le; lia | apply Z.ltb_lt; lia | by apply Z.leb_le |].
    by apply Nat.eqb_eq.
Qed.

(** Within [int] range the code's test is the disk inequality. *)
Lemma circle_mask_disk pw ph cx cy r x y :
  0 <= pw <= INT_MAX -> 0 <= ph <= INT_MAX ->
  0 <= r <= 32767 -> is_int (cx - r) -> is_int (cx + r) ->
  is_int (cy - r) -> is_int (cy + r) ->
  0 <= x < pw -> 0 <= y < ph ->
  circle_mask pw ph cx cy r (pixel_index pw x y) = true <->
  (x - cx) * (x - cx) + (y - cy) * (y - cy) <= r * r.
Proof.
  intros Hpw Hph Hr Hx1 Hx2 Hy1 Hy2 Hx Hy.
  rewrite circle_mask_spec. unfold int_of_size.
  rewrite (int_wrap_id pw), (int_wrap_id ph)
    by (unfold is_int, INT_MIN, INT_MAX in *; lia).
  rewrite (int_sub_exact cx r), (int_add_exact cx r),
          (int_sub_exact cy r), (int_add_exact cy r) by done.
  assert (Hrr : int_mul r r = r * r).
  { apply int_mul_exact. unfold is_int, INT_MIN, INT_MAX. nia. }
  rewrite Hrr.
  assert (Hexact : forall a b, cx - r <= a <= cx + r -> cy - r <= b <= cy + r ->
    int_add (int_mul (int_sub a cx) (int_sub a cx))
            (int_mul (int_sub b cy) (int_sub b cy)) =
    (a - cx) * (a - cx) + (b - cy) * (b - cy)).
  { intros a b Ha Hb. unfold is_int, INT_MIN, INT_MAX in *.
    rewrite (int_sub_exact a cx), (int_sub_exact b cy)
      by (unfold is_int, INT_MIN, INT_MAX; lia).
    rewrite !int_mul_exact by (unfold is_int, INT_MIN, INT_MAX; nia).
    apply int_add_exact. unfold is_int, INT_MIN, INT_MAX. nia. }
  split.
  - intros (x' & y' & Hrx & Hry & Hgx & Hgy & Hc & Hi).
    apply pixel_index_inj in Hi as [-> ->]; try lia.
    rewrite Hexact in Hc by lia. exact Hc.
  - intros Hdisk. exists x, y.
    pose proof (square_bound (x - cx) (y - cy) r ltac:(lia) Hdisk).
    pose proof (square_bound (y - cy) (x - cx) r ltac:(lia) ltac:(lia)).
    rewrite Hexact by lia. repeat split; lia.
Qed.

Lemma fill_circle_mono pixels pw ph cx cy r color fuel fuel' :
  (fuel <= fuel')%nat ->
  le_result (opencad_fill_circle fuel pixels pw ph cx cy r color)
            (opencad_fill_circle fuel' pixels pw ph cx cy r color).
Proof.
  intros Hle. unfold opencad_fill_circle. cbv zeta.
  apply for_loop_mono; [|done]. intros y s.
  destruct (_ && _); [|apply le_result_refl].
  apply for_loop_mono; [|done]. intros; apply le_result_refl.
Qed.

(** C3 (amended).  For a radius [0 <= r <= 32767] (so that squared
    distances fit in an [int]), a bounding box inside the [int] range and a
    buffer whose width and height fit in an [int], [fill_circle] returns and
    an in-bounds pixel holds the colour afterwards exactly when it lies in
    the disk [(x-cx)^2 + (y-cy)^2 <= r^2] or held the colour before; pixels
    outside the disk are unchanged. *)
Theorem fill_circle_disk fuel pixels pw ph cx cy r color :
  buffer_ok pixels pw ph -> pw <= INT_MAX -> ph <= INT_MAX ->
  0 <= r <= 32767 ->
  INT_MIN <= cx - r -> cx + r < INT_MAX ->
  INT_MIN <= cy - r -> cy + r < INT_MAX ->
  2 * r + 1 < Z.of_nat fuel ->
  exists pixels',
    opencad_fill_circle fuel pixels pw ph cx cy r color = Ok pixels' /\
    length pixels' = length pixels /\
    forall x y, 0 <= x < pw -> 0 <= y < ph ->
      (pixels' !! pixel_index pw x y = Some color <->
         (x - cx) * (x - cx) + (y - cy) * (y - cy) <= r * r \/
         pixels !! pixel_index pw x y = Some color) /\
      (~ (x - cx) * (x - cx) + (y - cy) * (y - cy) <= r * r ->
       pixels' !! pixel_index pw x y = pixels !! pixel_index pw x y).
Proof.
  intros Hbuf Bpw Bph Hr Hx1 Hx2 Hy1 Hy2 Hfuel.
  pose proof Hbuf as (Hpw & Hph & _).
  assert (Ix1 : is_int (cx - r)) by (unfold is_int, INT_MIN, INT_MAX in *; lia).
  assert (Ix2 : is_int (cx + r)) by (unfold is_int, INT_MIN, INT_MAX in *; lia).
  assert (Iy1 : is_int (cy - r)) by (unfold is_int, INT_MIN, INT_MAX in *; lia).
  assert (Iy2 : is_int (cy + r)) by (unfold is_int, INT_MIN, INT_MAX in *; lia).
  destruct (fill_circle_paints fuel pixels pw ph cx cy r color Hbuf)
    with (s := pixels) as (pixels' & Hrun & Hl & Hp);
    rewrite ?(int_sub_exact cx r), ?(int_add_exact cx r),
            ?(int_sub_exact cy r), ?(int_add_exact cy r) by done;
    try lia; try done.
  exists pixels'. split; [done|]. split; [done|].
  intros x y Hx Hy.
  destruct (pixel_address pixels pw ph x y Hbuf Hx Hy) as [_ Hlt].
  destruct (lookup_lt_is_Some_2 pixels _ Hlt) as [v Hv].
  pose proof (circle_mask_disk pw ph cx cy r x y ltac:(lia) ltac:(lia)
                Hr Ix1 Ix2 Iy1 Iy2 Hx Hy) as Hdisk.
  rewrite (Hp _ _ Hv), Hv.
  destruct (circle_mask pw ph cx cy r (pixel_index pw x y)).
  - split; [|intros Hn; exfalso; apply Hn; by apply Hdisk].
    split; [intros _; left; by apply Hdisk | done].
  - split; [|done]. split; [by right|].
    intros [Hd|Hc]; [apply Hdisk in Hd; discriminate | done].
Qed.

Lemma fill_circle_disk_witness :
  buffer_ok (replicate 25 0) 5 5 /\
  exists pixels',
    opencad_fill_circle 6 (replicate 25 0) 5 5 2 2 2 7 = Ok pixels' /\
    length pixels' = length (replicate 25 0 : list Z) /\
    forall x y, 0 <= x < 5 -> 0 <= y < 5 ->
      (pixels' !! pixel_index 5 x y = Some 7 <->
         (x - 2) * (x - 2) + (y - 2) * (y - 2) <= 2 * 2 \/
         replicate 25 0 !! pixel_index 5 x y = Some 7) /\
      (~ (x - 2) * (x - 2) + (y - 2) * (y - 2) <= 2 * 2 ->
       pixels' !! pixel_index 5 x y = replicate 25 0 !! pixel_index 5 x y).
Proof.
  assert (Hb : buffer_ok (replicate 25 0) 5 5)
    by (unfold buffer_ok, SIZE_MAX; simpl; lia).
  split; [exact Hb|].
  apply (fill_circle_disk 6 (replicate 25 0) 5 5 2 2 2 7 Hb);
    unfold INT_MIN, INT_MAX; lia.
Defined.

(** C3 as stated fails for large radii: [46341 * 46341] does not fit in an
    [int], the right-hand side of the test wraps to a negative number and
    not even the centre of the disk is painted. *)
Lemma fill_circle_disk_counterexample :
  buffer_ok [0] 1 1 /\ 0 <= 46341 /\
  (0 - 0) * (0 - 0) + (0 - 0) * (0 - 0) <= 46341 * 46341 /\
  opencad_fill_circle (Z.to_nat 92684) [0] 1 1 0 0 46341 7 = Ok [0] /\
  (forall fuel p, opencad_fill_circle fuel [0] 1 1 0 0 46341 7 = Ok p ->
     p !! pixel_index 1 0 0 = Some 0) /\
  Some 0 <> Some 7.
Proof.
  assert (Hrun : opencad_fill_circle (Z.to_nat 92684) [0] 1 1 0 0 46341 7 = Ok [0])
    by (vm_compute; reflexivity).
  split; [unfold buffer_ok, SIZE_MAX; simpl; lia|].
  split; [lia|]. split; [lia|]. split; [exact Hrun|]. split; [|congruence].
  intros fuel p Hp.
  rewrite (le_result_unique _ (fill_circle_mono [0] 1 1 0 0 46341 7) _ _ _ _ Hp Hrun).
  reflexivity.
Qed.

(** C9 (amended).  For a negative radius whose row bounds [cy - r] and
    [cy + r] are representable as [int]s, the row loop is empty and
    [fill_circle] returns the buffer unchanged. *)
Theorem fill_circle_negative_radius fuel pixels pw ph cx cy r color :
  r < 0 -> is_int (cy - r) -> is_int (cy + r) -> (0 < fuel)%nat ->
  opencad_fill_circle fuel pixels pw ph cx cy r color = Ok pixels.
Proof.
  intros Hr Hy1 Hy2 Hfuel. destruct fuel as [|fuel]; [lia|].
  unfold opencad_fill_circle. cbv zeta. simpl.
  rewrite (int_sub_exact cy r), (int_add_exact cy r) by done.
  destruct (Z.leb_spec (cy - r) (cy + r)); [lia | reflexivity].
Qed.

Lemma fill_circle_negative_radius_witness :
  -3 < 0 /\ is_int (2 - -3) /\ is_int (2 + -3) /\
  opencad_fill_circle 1 [1; 2; 3; 4] 2 2 1 2 (-3) 7 = Ok [1; 2; 3; 4].
Proof.
  assert (H1 : is_int (2 - -3)) by (unfold is_int, INT_MIN, INT_MAX; lia).
  assert (H2 : is_int (2 + -3)) by (unfold is_int, INT_MIN, INT_MAX; lia).
  split; [lia|]. split; [exact H1|]. split; [exact H2|].
  apply (fill_circle_negative_radius 1 [1; 2; 3; 4] 2 2 1 2 (-3) 7); [lia | exact H1 | exact H2 | lia].
Defined.

(** C9 as stated fails at the edge of the [int] range: with the centre at
    [(INT_MAX, INT_MAX)] and [r = -2] the differences [cx - r] and [cy - r]
    wrap around to [INT_MIN + 1], both loops run over almost every [int],
    the squares of [0 - INT_MAX] wrap to [1], and pixel [(0, 0)] passes the
    test [1 + 1 <= 4]. *)
Lemma fill_circle_negative_radius_counterexample :
  -2 < 0 /\ is_int 2147483647 /\ buffer_ok [0] 1 1 /\
  (forall fuel, 4294967293 < Z.of_nat fuel ->
     opencad_fill_circle fuel [0] 1 1 2147483647 2147483647 (-2) 7 = Ok [7]) /\
  (forall fuel p,
     opencad_fill_circle fuel [0] 1 1 2147483647 2147483647 (-2) 7 = Ok p ->
     p = [7]).
Proof.
  assert (Hb : buffer_ok [0] 1 1) by (unfold buffer_ok, SIZE_MAX; simpl; lia).
  assert (Hrun : forall fuel, 4294967293 < Z.of_nat fuel ->
     opencad_fill_circle fuel [0] 1 1 2147483647 2147483647 (-2) 7 = Ok [7]).
  { intros fuel Hfuel.
    assert (Hspan : int_add 2147483647 (-2) - int_sub 2147483647 (-2) + 1 = 4294967293)
      by (vm_compute; reflexivity).
    destruct (fill_circle_paints fuel [0] 1 1 2147483647 2147483647 (-2) 7 Hb)
      with (s := [0]) as (p & Hp & Hl & Hpaint);
      rewrite ?Hspan; [vm_compute; reflexivity | vm_compute; reflexivity
                      | lia | lia | reflexivity |].
    rewrite Hp. f_equal.
    {
      assert (Hm : circle_mask 1 1 2147483647 2147483647 (-2) 0 = true).
      { apply circle_mask_spec. exists 0, 0. vm_compute.
        repeat split; congruence. }
      specialize (Hpaint 0%nat 0 eq_refl). rewrite Hm in Hpaint.
      clear Hm Hp Hfuel.
      destruct p as [|a [|b p]]; simpl in Hl, Hpaint; try discriminate.
      congruence. } }
  split; [lia|]. split; [unfold is_int, INT_MIN, INT_MAX; lia|].
  split; [exact Hb|]. split; [exact Hrun|].
  intros fuel p Hp.
  destruct (enough_fuel 4294967293) as [fuel' Hfuel'].
  apply (le_result_unique _
           (fill_circle_mono [0] 1 1 2147483647 2147483647 (-2) 7)
           fuel fuel' p [7] Hp).
  by apply Hrun.
Qed.

(** ** [draw_line] *)

Lemma draw_line_mono pixels pw ph x1 y1 x2 y2 color fuel fuel' :
  (fuel <= fuel')%nat ->
  le_result (opencad_draw_line fuel pixels pw ph x1 y1 x2 y2 color)
            (opencad_draw_line fuel' pixels pw ph x1 y1 x2 y2 color).
Proof.
  intros Hle. unfold opencad_draw_line. cbv zeta.
  destruct (negb _).
  - destruct (if x1 >? x2 then _ else _) as [xa xb].
    apply for_loop_mono; [|done]. intros x s.
    destruct (_ && _); [|apply le_result_refl].
    destruct (if _ >? _ then _ else _) as [sa sb].
    apply for_loop_mono; [|done]. intros; apply le_result_refl.
  - destruct (_ && _); [|apply le_result_refl].
    destruct (if y1 >? y2 then _ else _) as [ya yb].
    apply for_loop_mono; [|done]. intros; apply le_result_refl.
Qed.

(** The loop over the rows of one column, shared by both branches. *)
Lemma column_paints fuel pixels pw ph x lo hi color :
  buffer_ok pixels pw ph -> 0 <= x < pw ->
  is_int lo -> hi < INT_MAX -> Z.max 0 (hi - lo + 1) < Z.of_nat fuel ->
  paints (length pixels) color (column_mask pw ph x lo hi)
    (for_loop fuel (fun y => y <=? hi) int_succ
       (fun y pixels =>
          if (0 <=? y) && (y <? int_of_size ph)
          then store pixels (size_add (size_mul (size_of_int y) pw) (size_of_int x)) color
          else Ok pixels)
       lo).
Proof.
  intros Hbuf Hx Hlo Hhi Hfuel. unfold column_mask.
  pose proof Hbuf as (Hpw & Hph & _).
  apply paints_for_le; [done | done | | done].
  intros y _. apply (paints_pixel pixels pw ph color); [done|].
  intros Hg. apply andb_true_iff in Hg as [Hy1 Hy2].
  apply Z.leb_le in Hy1. apply Z.ltb_lt in Hy2.
  pose proof (int_of_size_le ph Hph). lia.
Qed.

Lemma column_mask_spec pw ph x lo hi x' y' :
  0 <= ph <= INT_MAX -> 0 <= x < pw -> 0 <= x' < pw -> 0 <= y' < ph ->
  column_mask pw ph x lo hi (pixel_index pw x' y') = true <->
  x' = x /\ lo <= y' <= hi.
Proof.
  intros Hph Hx Hx' Hy'. unfold column_mask, int_of_size.
  rewrite (int_wrap_id ph) by (unfold is_int, INT_MIN, INT_MAX in *; lia).
  rewrite existsb_seqZ. split.
  - intros (y & Hy & H). rewrite !andb_true_iff in H.
    destruct H as ([Hy1 Hy2] & Hi).
    apply Z.leb_le in Hy1. apply Z.ltb_lt in Hy2. apply Nat.eqb_eq in Hi.
    apply pixel_index_inj in Hi as [-> ->]; lia.
  - intros [-> Hr]. exists y'. split; [lia|].
    rewrite !andb_true_iff.
    repeat split; [apply Z.leb_le; lia | apply Z.ltb_lt; lia | by apply Nat.eqb_eq].
Qed.

(** One column of a line: the two ends are put in order, then the rows
    between them are painted. *)
Lemma ordered_column_paints fuel pixels pw ph x y1 y2 color :
  buffer_ok pixels pw ph -> 0 <= x < pw ->
  is_int y1 -> is_int y2 -> y1 < INT_MAX -> y2 < INT_MAX ->
  Z.max 0 (Z.max y1 y2 - Z.min y1 y2 + 1) < Z.of_nat fuel ->
  paints (length pixels) color (column_mask pw ph x (Z.min y1 y2) (Z.max y1 y2))
    (fun s =>
       let '(y1, y2) := if y1 >? y2 then swap_int (y1, y2) else (y1, y2) in
       for_loop fuel (fun y => y <=? y2) int_succ
         (fun y pixels =>
            if (0 <=? y) && (y <? int_of_size ph)
            then store pixels (size_add (size_mul (size_of_int y) pw) (size_of_int x)) color
            else Ok pixels)
         y1 s).
Proof.
  intros Hbuf Hx Hy1 Hy2 My1 My2 Hfuel.
  destruct (Z.gtb_spec y1 y2) as [Hgt|Hle]; simpl.
  - rewrite (Z.max_l y1 y2), (Z.min_r y1 y2) in * by lia.
    by apply (column_paints fuel pixels pw ph x).
  - rewrite (Z.max_r y1 y2), (Z.min_l y1 y2) in * by lia.
    by apply (column_paints fuel pixels pw ph x).
Qed.

Lemma draw_line_vertical_paints fuel pixels pw ph x y1 y2 color :
  buffer_ok pixels pw ph -> pw <= INT_MAX -> 0 <= x < pw ->
  is_int y1 -> is_int y2 -> y1 < INT_MAX -> y2 < INT_MAX ->
  Z.max y1 y2 - Z.min y1 y2 + 1 < Z.of_nat fuel ->
  paints (length pixels) color (column_mask pw ph x (Z.min y1 y2) (Z.max y1 y2))
    (fun s => opencad_draw_line fuel s pw ph x y1 x y2 color).
Proof.
  intros Hbuf Bpw Hx Hy1 Hy2 My1 My2 Hfuel.
  unfold opencad_draw_line. cbv zeta.
  assert (Hdx : int_sub x x = 0) by (unfold int_sub; by rewrite Z.sub_diag).
  rewrite Hdx. simpl negb. cbv iota.
  unfold int_of_size at 1.
  rewrite (int_wrap_id pw) by (unfold is_int, INT_MIN, INT_MAX in *; lia).
  destruct (Z.leb_spec 0 x); [|lia]. destruct (Z.ltb_spec x pw); [|lia].
  simpl andb. cbv iota.
  apply (ordered_column_paints fuel pixels pw ph x y1 y2 color); auto. lia.
Qed.

(** C5 (amended).  For a vertical line ([x1 == x2]) in a column of the
    buffer, with both ends below [INT_MAX] and a buffer whose width and
    height fit in an [int], [draw_line] returns, sets the pixels of column
    [x1] in the rows [min(y1,y2) .. max(y1,y2)] that lie in the buffer, and
    changes no other pixel; a zero-length line at an in-bounds point sets
    exactly that pixel. *)
Theorem draw_line_vertical fuel pixels pw ph x1 y1 x2 y2 color :
  buffer_ok pixels pw ph -> pw <= INT_MAX -> ph <= INT_MAX ->
  x1 = x2 -> 0 <= x1 < pw ->
  is_int y1 -> is_int y2 -> y1 < INT_MAX -> y2 < INT_MAX ->
  Z.max y1 y2 - Z.min y1 y2 + 1 < Z.of_nat fuel ->
  exists pixels',
    opencad_draw_line fuel pixels pw ph x1 y1 x2 y2 color = Ok pixels' /\
    length pixels' = length pixels /\
    (forall x y, 0 <= x < pw -> 0 <= y < ph ->
       (x = x1 /\ Z.min y1 y2 <= y <= Z.max y1 y2 ->
        pixels' !! pixel_index pw x y = Some color) /\
       (~ (x = x1 /\ Z.min y1 y2 <= y <= Z.max y1 y2) ->
        pixels' !! pixel_index pw x y = pixels !! pixel_index pw x y)) /\
    (y1 = y2 -> 0 <= y1 < ph ->
     pixels' = <[pixel_index pw x1 y1 := color]> pixels).
Proof.
  intros Hbuf Bpw Bph <- Hx1 Iy1 Iy2 My1 My2 Hfuel.
  pose proof Hbuf as (Hpw & Hph & _).
  destruct (draw_line_vertical_paints fuel pixels pw ph x1 y1 y2 color)
    with (s := pixels) as (pixels' & Hrun & Hl & Hp); auto.
  assert (Hpix : forall x y, 0 <= x < pw -> 0 <= y < ph ->
    (x = x1 /\ Z.min y1 y2 <= y <= Z.max y1 y2 ->
     pixels' !! pixel_index pw x y = Some color) /\
    (~ (x = x1 /\ Z.min y1 y2 <= y <= Z.max y1 y2) ->
     pixels' !! pixel_index pw x y = pixels !! pixel_index pw x y)).
  { intros x y Hx Hy.
    destruct (pixel_address pixels pw ph x y Hbuf Hx Hy) as [_ Hlt].
    destruct (lookup_lt_is_Some_2 pixels _ Hlt) as [v Hv].
    pose proof (column_mask_spec pw ph x1 (Z.min y1 y2) (Z.max y1 y2) x y
                  ltac:(lia) Hx1 Hx Hy) as Hm.
    rewrite (Hp _ _ Hv), Hv.
    destruct (column_mask pw ph x1 (Z.min y1 y2) (Z.max y1 y2) (pixel_index pw x y)).
    - split; [done|]. intros Hn. exfalso. apply Hn. by apply Hm.
    - split; [|done]. intros Hin. apply Hm in Hin. discriminate. }
  exists pixels'. split; [done|]. split; [done|]. split; [exact Hpix|].
  intros <- Hy1. apply list_eq. intros i.
  destruct (Nat.lt_ge_cases i (length pixels)) as [Hi|Hi].
  - destruct (pixel_of_index pixels pw ph i Hbuf Hi) as (x & y & Hx & Hy & ->).
    destruct (Hpix x y Hx Hy) as [Hin Hout].
    destruct (decide (x = x1 /\ y = y1)) as [[-> ->]|Hne].
    + rewrite Hin by lia. symmetry. by apply list_lookup_insert_eq.
    + rewrite Hout by lia. symmetry. apply list_lookup_insert_ne.
      intros He. apply pixel_index_inj in He; lia.
  - rewrite !(proj2 (lookup_ge_None _ _)); [done | | lia].
    rewrite length_insert. lia.
Qed.

Lemma draw_line_vertical_witness :
  buffer_ok (replicate 25 0) 5 5 /\ is_int 3 /\ is_int 1 /\
  exists pixels',
    opencad_draw_line 4 (replicate 25 0) 5 5 1 3 1 1 7 = Ok pixels' /\
    length pixels' = length (replicate 25 0 : list Z) /\
    (forall x y, 0 <= x < 5 -> 0 <= y < 5 ->
       (x = 1 /\ Z.min 3 1 <= y <= Z.max 3 1 ->
        pixels' !! pixel_index 5 x y = Some 7) /\
       (~ (x = 1 /\ Z.min 3 1 <= y <= Z.max 3 1) ->
        pixels' !! pixel_index 5 x y = replicate 25 0 !! pixel_index 5 x y)) /\
    (3 = 1 -> 0 <= 3 < 5 ->
     pixels' = <[pixel_index 5 1 3 := 7]> (replicate 25 0)).
Proof.
  assert (Hb : buffer_ok (replicate 25 0) 5 5)
    by (unfold buffer_ok, SIZE_MAX; simpl; lia).
  assert (H3 : is_int 3) by (unfold is_int, INT_MIN, INT_MAX; lia).
  assert (H1 : is_int 1) by (unfold is_int, INT_MIN, INT_MAX; lia).
  split; [exact Hb|]. split; [exact H3|]. split; [exact H1|].
  apply (draw_line_vertical 4 (replicate 25 0) 5 5 1 3 1 1 7 Hb);
    unfold INT_MAX; try done; lia.
Defined.

(** C5 as stated fails when the line ends in row [INT_MAX]: the test
    [y <= y2] then holds for every [int], the counter wraps around, and the
    call never returns. *)
Lemma draw_line_vertical_counterexample :
  buffer_ok [0] 1 1 /\ 0 <= 0 < 1 /\ is_int 0 /\ is_int 2147483647 /\
  forall fuel, opencad_draw_line fuel [0] 1 1 0 0 0 2147483647 7 = OutOfFuel.
Proof.
  split; [unfold buffer_ok, SIZE_MAX; simpl; lia|]. split; [lia|].
  split; [unfold is_int, INT_MIN, INT_MAX; lia|].
  split; [unfold is_int, INT_MIN, INT_MAX; lia|].
  intros fuel. unfold opencad_draw_line. cbv zeta.
  change (int_sub 0 0) with 0. simpl negb. cbv iota.
  change ((0 <=? 0) && (0 <? int_of_size 1)) with true. cbv iota.
  change (if 0 >? 2147483647 then swap_int (0, 2147483647) else (0, 2147483647))
    with (0, 2147483647).
  apply (for_loop_diverges is_int (fun s => length s = 1%nat)).
  - intros v Hv. split; [apply Z.leb_le, Hv | apply int_wrap_range].
  - intros v s Hv Hs.
    destruct ((0 <=? v) && (v <? int_of_size 1)) eqn:Hg; [|by exists s].
    apply andb_true_iff in Hg as [Hg1 Hg2].
    apply Z.leb_le in Hg1. apply Z.ltb_lt in Hg2.
    change (int_of_size 1) with 1 in Hg2.
    assert (v = 0) as -> by lia.
    destruct s as [|a [|b s]]; try discriminate.
    exists [7]. split; reflexivity.
  - unfold is_int, INT_MIN, INT_MAX. lia.
  - reflexivity.
Qed.

Lemma draw_line_paints fuel pixels pw ph x1 y1 x2 y2 color :
  buffer_ok pixels pw ph ->
  int_sub x2 x1 <> 0 ->
  is_int x1 -> is_int x2 -> x1 < INT_MAX -> x2 < INT_MAX ->
  Z.max 0 (Z.max x1 x2 - Z.min x1 x2 + 1) < Z.of_nat fuel ->
  (forall x, Z.min x1 x2 <= x <= Z.max x1 x2 -> 0 <= x < int_of_size pw ->
     let dx := int_sub x2 x1 in
     let dy := int_sub y2 y1 in
     let c := int_sub y1 (int_div (int_mul dy x1) dx) in
     let sy1 := code_row dx dy c x in
     let sy2 := code_row dx dy c (int_add x 1) in
     sy1 < INT_MAX /\ sy2 < INT_MAX /\
     Z.max 0 (Z.max sy1 sy2 - Z.min sy1 sy2 + 1) < Z.of_nat fuel) ->
  paints (length pixels) color (line_mask pw ph x1 y1 x2 y2)
    (fun s => opencad_draw_line fuel s pw ph x1 y1 x2 y2 color).
Proof.
  intros Hbuf Hdx Ix1 Ix2 Mx1 Mx2 Hfuel Hcol.
  pose proof Hbuf as (Hpw & Hph & _).
  unfold opencad_draw_line, line_mask, code_row in *. cbv zeta in *.
  destruct (Z.eqb_spec (int_sub x2 x1) 0) as [|_]; [done|]. simpl negb. cbv iota.
  assert (Hbody : forall x, Z.min x1 x2 <= x <= Z.max x1 x2 ->
    (0 <=? x) && (x <? int_of_size pw) = true ->
    0 <= x < pw /\ 0 <= x < int_of_size pw).
  { intros x _ Hg. apply andb_true_iff in Hg as [Hg1 Hg2].
    apply Z.leb_le in Hg1. apply Z.ltb_lt in Hg2.
    pose proof (int_of_size_le pw Hpw). lia. }
  destruct (Z.gtb_spec x1 x2) as [Hgt|Hle]; simpl.
  - rewrite (Z.max_l x1 x2), (Z.min_r x1 x2) in * by lia.
    apply paints_for_le; [done | done | | done].
    intros x Hx.
    apply (paints_if _ _ ((0 <=? x) && (x <? int_of_size pw))). intros Hg.
    destruct (Hbody x Hx Hg) as [Hin Hin']. destruct (Hcol x Hx Hin') as (M1 & M2 & Hspan).
    apply (ordered_column_paints fuel pixels pw ph x); auto; apply int_wrap_range.
  - rewrite (Z.max_r x1 x2), (Z.min_l x1 x2) in * by lia.
    apply paints_for_le; [done | done | | done].
    intros x Hx.
    apply (paints_if _ _ ((0 <=? x) && (x <? int_of_size pw))). intros Hg.
    destruct (Hbody x Hx Hg) as [Hin Hin']. destruct (Hcol x Hx Hin') as (M1 & M2 & Hspan).
    apply (ordered_column_paints fuel pixels pw ph x); auto; apply int_wrap_range.
Qed.

Lemma line_mask_spec pw ph x1 y1 x2 y2 i :
  line_mask pw ph x1 y1 x2 y2 i = true <->
  exists x,
    Z.min x1 x2 <= x <= Z.max x1 x2 /\ 0 <= x < int_of_size pw /\
    let dx := int_sub x2 x1 in
    let dy := int_sub y2 y1 in
    let c := int_sub y1 (int_div (int_mul dy x1) dx) in
    let sy1 := code_row dx dy c x in
    let sy2 := code_row dx dy c (int_add x 1) in
    column_mask pw ph x (Z.min sy1 sy2) (Z.max sy1 sy2) i = true.
Proof.
  unfold line_mask. cbv zeta. rewrite existsb_seqZ. split.
  - intros (x & Hx & H). rewrite !andb_true_iff in H.
    destruct H as ([H1 H2] & Hc). apply Z.leb_le in H1. apply Z.ltb_lt in H2.
    exists x. repeat split; auto; lia.
  - intros (x & Hx & Hg & Hc). exists x. split; [lia|].
    rewrite !andb_true_iff.
    repeat split; [apply Z.leb_le; lia | apply Z.ltb_lt; lia | done].
Qed.

(** For end points within 16 bits the code's rows are the specification's,
    and a column's span is short. *)
Lemma code_row_exact x1 y1 x2 y2 x :
  x1 <> x2 ->
  -32767 <= x1 <= 32767 -> -32767 <= y1 <= 32767 ->
  -32767 <= x2 <= 32767 -> -32767 <= y2 <= 32767 ->
  Z.min x1 x2 <= x <= Z.max x1 x2 + 1 ->
  let dx := int_sub x2 x1 in
  let dy := int_sub y2 y1 in
  let c := int_sub y1 (int_div (int_mul dy x1) dx) in
  code_row dx dy c x = line_row x1 y1 x2 y2 x /\
  Z.abs (line_row x1 y1 x2 y2 x - y1) <= 2 * Z.abs (y2 - y1) + 2.
Proof.
  intros Hne Bx1 By1 Bx2 By2 Hx. cbv zeta.
  unfold code_row, line_row. cbv zeta.
  rewrite (int_sub_exact x2 x1), (int_sub_exact y2 y1)
    by (unfold is_int, INT_MIN, INT_MAX; lia).
  set (dx := x2 - x1). set (dy := y2 - y1).
  assert (Hdx : dx <> 0) by (unfold dx; lia).
  assert (Hprod : forall k, -32768 <= k <= 32768 -> Z.abs (dy * k) <= 2147418112).
  { intros k Hk. unfold dy. rewrite Z.abs_mul.
    assert (Z.abs (y2 - y1) <= 65534) by lia.
    assert (Z.abs k <= 32768) by lia. nia. }
  assert (Hq : forall k, -32768 <= k <= 32768 ->
            Z.abs (Z.quot (dy * k) dx) <= 2147418112).
  { intros k Hk. pose proof (quot_abs_le (dy * k) dx Hdx).
    pose proof (Hprod k Hk). lia. }
  assert (Hmul : forall k, -32768 <= k <= 32768 -> int_mul dy k = dy * k).
  { intros k Hk. apply int_mul_exact. pose proof (Hprod k Hk).
    unfold is_int, INT_MIN, INT_MAX. lia. }
  assert (Hdiv : forall k, -32768 <= k <= 32768 ->
            int_div (dy * k) dx = Z.quot (dy * k) dx).
  { intros k Hk. apply int_div_exact. pose proof (Hq k Hk).
    unfold is_int, INT_MIN, INT_MAX. lia. }
  rewrite (Hmul x1), (Hmul x), (Hdiv x1), (Hdiv x) by lia.
  pose proof (Hq x1 ltac:(lia)) as Hq1.
  rewrite (int_sub_exact y1) by (unfold is_int, INT_MIN, INT_MAX; lia).
  assert (Hdiff : Z.abs (Z.quot (dy * x) dx - Z.quot (dy * x1) dx) <=
                  2 * Z.abs dy + 2).
  { apply quot_diff_bound; [done | lia |].
    replace (dy * x - dy * x1) with (dy * (x - x1)) by ring.
    rewrite Z.abs_mul. apply Z.mul_le_mono_nonneg_l; [lia|]. unfold dx. lia. }
  split.
  - apply int_add_exact. unfold is_int, INT_MIN, INT_MAX.
    assert (Z.abs dy <= 65534) by (unfold dy; lia). lia.
  - fold dy. lia.
Qed.

(** Within 16-bit end points the code's selection is the specification's:
    column [x] of the line, rows between [line_row x] and [line_row (x+1)]. *)
Lemma line_mask_rows pw ph x1 y1 x2 y2 x y :
  0 <= pw <= INT_MAX -> 0 <= ph <= INT_MAX -> x1 <> x2 ->
  -32767 <= x1 <= 32767 -> -32767 <= y1 <= 32767 ->
  -32767 <= x2 <= 32767 -> -32767 <= y2 <= 32767 ->
  0 <= x < pw -> 0 <= y < ph ->
  line_mask pw ph x1 y1 x2 y2 (pixel_index pw x y) = true <->
  Z.min x1 x2 <= x <= Z.max x1 x2 /\
  Z.min (line_row x1 y1 x2 y2 x) (line_row x1 y1 x2 y2 (x + 1)) <= y <=
  Z.max (line_row x1 y1 x2 y2 x) (line_row x1 y1 x2 y2 (x + 1)).
Proof.
  intros Hpw Hph Hne Bx1 By1 Bx2 By2 Hx Hy.
  rewrite line_mask_spec. unfold int_of_size.
  rewrite (int_wrap_id pw) by (unfold is_int, INT_MIN, INT_MAX in *; lia).
  cbv zeta.
  set (dx := int_sub x2 x1). set (dy := int_sub y2 y1).
  set (c := int_sub y1 (int_div (int_mul dy x1) dx)).
  assert (Hrows : forall x', Z.min x1 x2 <= x' <= Z.max x1 x2 -> 0 <= x' < pw ->
    column_mask pw ph x'
      (Z.min (code_row dx dy c x') (code_row dx dy c (int_add x' 1)))
      (Z.max (code_row dx dy c x') (code_row dx dy c (int_add x' 1)))
      (pixel_index pw x y) = true <->
    x = x' /\
    Z.min (line_row x1 y1 x2 y2 x') (line_row x1 y1 x2 y2 (x' + 1)) <= y <=
    Z.max (line_row x1 y1 x2 y2 x') (line_row x1 y1 x2 y2 (x' + 1))).
  { intros x' Hr Hx'. subst dx dy c.
    rewrite (int_add_exact x' 1) by (unfold is_int, INT_MIN, INT_MAX; lia).
    destruct (code_row_exact x1 y1 x2 y2 x' Hne Bx1 By1 Bx2 By2 ltac:(lia)) as [-> _].
    destruct (code_row_exact x1 y1 x2 y2 (x' + 1) Hne Bx1 By1 Bx2 By2 ltac:(lia))
      as [-> _].
    apply column_mask_spec; auto. }
  split.
  - intros (x' & Hr & Hx' & Hc). apply Hrows in Hc as [-> Hc]; auto.
  - intros [Hr Hc]. exists x. split; [done|]. split; [done|].
    apply Hrows; auto.
Qed.

(** C4 (amended).  For a non-vertical line whose end points have
    coordinates in [-32767, 32767] (so that no [int] computation
    overflows) and a buffer whose width and height fit in an [int],
    [draw_line] returns; with [dx = x2-x1], [dy = y2-y1] and the intercept
    [c = y1 - (dy*x1)/dx], it sets, for each column [x] between [x1] and
    [x2] inside the buffer, the pixels in the rows between
    [(dy*x)/dx + c] and [(dy*(x+1))/dx + c] that lie inside the buffer, all
    quotients truncated toward zero, and changes no other pixel. *)
Theorem draw_line_columns fuel pixels pw ph x1 y1 x2 y2 color :
  buffer_ok pixels pw ph -> pw <= INT_MAX -> ph <= INT_MAX ->
  x1 <> x2 ->
  -32767 <= x1 <= 32767 -> -32767 <= y1 <= 32767 ->
  -32767 <= x2 <= 32767 -> -32767 <= y2 <= 32767 ->
  Z.max (Z.abs (x2 - x1) + 1) (4 * Z.abs (y2 - y1) + 5) < Z.of_nat fuel ->
  exists pixels',
    opencad_draw_line fuel pixels pw ph x1 y1 x2 y2 color = Ok pixels' /\
    length pixels' = length pixels /\
    forall x y, 0 <= x < pw -> 0 <= y < ph ->
      let sy1 := line_row x1 y1 x2 y2 x in
      let sy2 := line_row x1 y1 x2 y2 (x + 1) in
      (Z.min x1 x2 <= x <= Z.max x1 x2 /\ Z.min sy1 sy2 <= y <= Z.max sy1 sy2 ->
       pixels' !! pixel_index pw x y = Some color) /\
      (~ (Z.min x1 x2 <= x <= Z.max x1 x2 /\ Z.min sy1 sy2 <= y <= Z.max sy1 sy2) ->
       pixels' !! pixel_index pw x y = pixels !! pixel_index pw x y).
Proof.
  intros Hbuf Bpw Bph Hne Bx1 By1 Bx2 By2 Hfuel.
  pose proof Hbuf as (Hpw & Hph & _).
  destruct (draw_line_paints fuel pixels pw ph x1 y1 x2 y2 color Hbuf)
    with (s := pixels) as (pixels' & Hrun & Hl & Hp);
    try (unfold is_int, INT_MIN, INT_MAX; lia); try done.
  - rewrite int_sub_exact by (unfold is_int, INT_MIN, INT_MAX; lia). lia.
  - intros x Hr Hx. cbv zeta.
    rewrite (int_add_exact x 1) by (unfold is_int, INT_MIN, INT_MAX; lia).
    destruct (code_row_exact x1 y1 x2 y2 x Hne Bx1 By1 Bx2 By2 ltac:(lia))
      as [-> Ha].
    destruct (code_row_exact x1 y1 x2 y2 (x + 1) Hne Bx1 By1 Bx2 By2 ltac:(lia))
      as [-> Hb].
    unfold INT_MAX. lia.
  - exists pixels'. split; [done|]. split; [done|].
    intros x y Hx Hy. cbv zeta.
    destruct (pixel_address pixels pw ph x y Hbuf Hx Hy) as [_ Hlt].
    destruct (lookup_lt_is_Some_2 pixels _ Hlt) as [v Hv].
    pose proof (line_mask_rows pw ph x1 y1 x2 y2 x y ltac:(lia) ltac:(lia)
                  Hne Bx1 By1 Bx2 By2 Hx Hy) as Hm.
    rewrite (Hp _ _ Hv), Hv.
    destruct (line_mask pw ph x1 y1 x2 y2 (pixel_index pw x y)).
    + split; [done|]. intros Hn. exfalso. apply Hn. by apply Hm.
    + split; [|done]. intros Hin. apply Hm in Hin. discriminate.
Qed.

Lemma draw_line_columns_witness :
  buffer_ok (replicate 25 0) 5 5 /\ 0 <> 4 /\
  exists pixels',
    opencad_draw_line 14 (replicate 25 0) 5 5 0 0 4 2 7 = Ok pixels' /\
    length pixels' = length (replicate 25 0 : list Z) /\
    forall x y, 0 <= x < 5 -> 0 <= y < 5 ->
      let sy1 := line_row 0 0 4 2 x in
      let sy2 := line_row 0 0 4 2 (x + 1) in
      (Z.min 0 4 <= x <= Z.max 0 4 /\ Z.min sy1 sy2 <= y <= Z.max sy1 sy2 ->
       pixels' !! pixel_index 5 x y = Some 7) /\
      (~ (Z.min 0 4 <= x <= Z.max 0 4 /\ Z.min sy1 sy2 <= y <= Z.max sy1 sy2) ->
       pixels' !! pixel_index 5 x y = replicate 25 0 !! pixel_index 5 x y).
Proof.
  assert (Hb : buffer_ok (replicate 25 0) 5 5)
    by (unfold buffer_ok, SIZE_MAX; simpl; lia).
  assert (Hne : 0 <> 4) by lia.
  split; [exact Hb|]. split; [exact Hne|].
  apply (draw_line_columns 14 (replicate 25 0) 5 5 0 0 4 2 7 Hb);
    unfold INT_MAX; lia.
Defined.

(** C4 as stated fails when a product [dy*x] leaves the [int] range.  On
    the line from [(0, 0)] to [(2147483646, 1073741824)] the formula puts
    rows [0 .. 1] in column [1], since [(dy*2)/dx = 1]; the code computes
    [dy*2] as [-2147483648], gets [-1] for the quotient and paints row [0]
    only. *)
Lemma draw_line_columns_counterexample :
  buffer_ok [0; 0; 0; 0] 2 2 /\ 0 <> 2147483646 /\
  (Z.min 0 2147483646 <= 1 <= Z.max 0 2147483646 /\
   Z.min (line_row 0 0 2147483646 1073741824 1)
         (line_row 0 0 2147483646 1073741824 (1 + 1)) <= 1 <=
   Z.max (line_row 0 0 2147483646 1073741824 1)
         (line_row 0 0 2147483646 1073741824 (1 + 1))) /\
  (forall fuel, 2147483647 < Z.of_nat fuel ->
     opencad_draw_line fuel [0; 0; 0; 0] 2 2 0 0 2147483646 1073741824 7 =
     Ok [7; 7; 0; 0]) /\
  (forall fuel p,
     opencad_draw_line fuel [0; 0; 0; 0] 2 2 0 0 2147483646 1073741824 7 = Ok p ->
     p !! pixel_index 2 1 1 = Some 0).
Proof.
  assert (Hb : buffer_ok [0; 0; 0; 0] 2 2)
    by (unfold buffer_ok, SIZE_MAX; simpl; lia).
  assert (Hcols : forall x, 0 <= x < int_of_size 2 -> x = 0 \/ x = 1).
  { intros x. change (int_of_size 2) with 2. lia. }
  assert (Hrun : forall fuel, 2147483647 < Z.of_nat fuel ->
     opencad_draw_line fuel [0; 0; 0; 0] 2 2 0 0 2147483646 1073741824 7 =
     Ok [7; 7; 0; 0]).
  { intros fuel Hfuel.
    destruct (draw_line_paints fuel [0; 0; 0; 0] 2 2 0 0 2147483646 1073741824 7 Hb)
      with (s := [0; 0; 0; 0]) as (p & Hp & Hl & Hpaint).
    - vm_compute. congruence.
    - unfold is_int, INT_MIN, INT_MAX. lia.
    - unfold is_int, INT_MIN, INT_MAX. lia.
    - unfold INT_MAX. lia.
    - unfold INT_MAX. lia.
    - lia.
    - intros x _ Hx. cbv zeta.
      destruct (Hcols x Hx) as [-> | ->].
      + change (code_row _ _ _ 0) with 0.
        change (code_row _ _ _ (int_add 0 1)) with 0. unfold INT_MAX. lia.
      + change (code_row _ _ _ 1) with 0.
        change (code_row _ _ _ (int_add 1 1)) with (-1). unfold INT_MAX. lia.
    - reflexivity.
    - rewrite Hp. f_equal. clear Hp.
      assert (M0 : line_mask 2 2 0 0 2147483646 1073741824 0 = true).
      { apply line_mask_spec. exists 0. vm_compute. repeat split; congruence. }
      assert (M1 : line_mask 2 2 0 0 2147483646 1073741824 1 = true).
      { apply line_mask_spec. exists 1. vm_compute. repeat split; congruence. }
      assert (M2 : line_mask 2 2 0 0 2147483646 1073741824 2 = false).
      { apply not_true_is_false. intros H.
        apply line_mask_spec in H as (x & _ & Hx & Hc).
        destruct (Hcols x Hx) as [-> | ->]; vm_compute in Hc; discriminate. }
      assert (M3 : line_mask 2 2 0 0 2147483646 1073741824 3 = false).
      { apply not_true_is_false. intros H.
        apply line_mask_spec in H as (x & _ & Hx & Hc).
        destruct (Hcols x Hx) as [-> | ->]; vm_compute in Hc; discriminate. }
      pose proof (Hpaint 0%nat 0 eq_refl) as P0.
      pose proof (Hpaint 1%nat 0 eq_refl) as P1.
      pose proof (Hpaint 2%nat 0 eq_refl) as P2.
      pose proof (Hpaint 3%nat 0 eq_refl) as P3.
      rewrite M0 in P0. rewrite M1 in P1. rewrite M2 in P2. rewrite M3 in P3.
      clear Hpaint M0 M1 M2 M3 Hfuel.
      destruct p as [|a [|b [|c [|d [|e p]]]]]; simpl in Hl; try discriminate.
      simpl in P0, P1, P2, P3. congruence. }
  split; [exact Hb|]. split; [lia|]. split; [vm_compute; intuition congruence|].
  split; [exact Hrun|].
  intros fuel p Hp.
  destruct (enough_fuel 2147483647) as [fuel' Hfuel'].
  rewrite (le_result_unique _
             (draw_line_mono [0; 0; 0; 0] 2 2 0 0 2147483646 1073741824 7)
             fuel fuel' p [7; 7; 0; 0] Hp (Hrun fuel' Hfuel')).
  reflexivity.
Qed.

(** ** Memory safety of the primitives *)

Lemma for_loop_safe n cond next (body : Z -> list Z -> result (list Z)) :
  (forall v s, length s = n -> safe n (body v s)) ->
  forall fuel i s, length s = n -> safe n (for_loop fuel cond next body i s).
Proof.
  intros Hbody. induction fuel as [|fuel IH]; intros i s Hs; [exact I|].
  simpl. destruct (cond i); [|exact Hs].
  pose proof (Hbody i s Hs) as Hb.
  destruct (body i s) as [s1| |]; simpl in *; auto.
Qed.

(** The store behind the two bounds tests never leaves the buffer. *)
Lemma guarded_store_safe pixels pw ph x y color s :
  buffer_ok pixels pw ph -> length s = length pixels ->
  safe (length pixels)
    (if (0 <=? x) && (x <? int_of_size pw) then
       if (0 <=? y) && (y <? int_of_size ph) then
         store s (size_add (size_mul (size_of_int y) pw) (size_of_int x)) color
       else Ok s
     else Ok s).
Proof.
  intros Hbuf Hs. pose proof Hbuf as (Hpw & Hph & _).
  destruct ((0 <=? x) && (x <? int_of_size pw)) eqn:Hgx; [|exact Hs].
  destruct ((0 <=? y) && (y <? int_of_size ph)) eqn:Hgy; [|exact Hs].
  apply andb_true_iff in Hgx as [Hx1 Hx2]. apply andb_true_iff in Hgy as [Hy1 Hy2].
  apply Z.leb_le in Hx1, Hy1. apply Z.ltb_lt in Hx2, Hy2.
  pose proof (int_of_size_le pw Hpw). pose proof (int_of_size_le ph Hph).
  destruct (paints_store (length pixels) color
              (size_add (size_mul (size_of_int y) pw) (size_of_int x)))
    with (s := s) as (s' & -> & Hl & _); [|done|exact Hl].
  destruct (pixel_address pixels pw ph x y Hbuf) as [-> Hlt]; [lia|lia|].
  exact Hlt.
Qed.

Lemma fill_rect_safe fuel pixels pw ph x0 y0 w h color :
  buffer_ok pixels pw ph ->
  safe (length pixels) (opencad_fill_rect fuel pixels pw ph x0 y0 w h color).
Proof.
  intros Hbuf. unfold opencad_fill_rect.
  apply for_loop_safe; [|done]. intros dy s Hs. cbv zeta.
  destruct ((0 <=? int_add y0 dy) && _) eqn:Hgy; [|exact Hs].
  apply for_loop_safe; [|done]. intros dx s' Hs'. cbv zeta.
  pose proof (guarded_store_safe pixels pw ph (int_add x0 dx) (int_add y0 dy)
                color s' Hbuf Hs') as H.
  rewrite Hgy in H. exact H.
Qed.

Lemma fill_circle_safe fuel pixels pw ph cx cy r color :
  buffer_ok pixels pw ph ->
  safe (length pixels) (opencad_fill_circle fuel pixels pw ph cx cy r color).
Proof.
  intros Hbuf. unfold opencad_fill_circle. cbv zeta.
  apply for_loop_safe; [|done]. intros y s Hs.
  destruct ((0 <=? y) && _) eqn:Hgy; [|exact Hs].
  apply for_loop_safe; [|done]. intros x s' Hs'.
  pose proof (guarded_store_safe pixels pw ph x y color s' Hbuf Hs') as H.
  rewrite Hgy in H.
  destruct ((0 <=? x) && _); [|exact Hs'].
  destruct (int_add _ _ <=? _); [exact H | exact Hs'].
Qed.

Lemma draw_line_safe fuel pixels pw ph x1 y1 x2 y2 color :
  buffer_ok pixels pw ph ->
  safe (length pixels) (opencad_draw_line fuel pixels pw ph x1 y1 x2 y2 color).
Proof.
  intros Hbuf. unfold opencad_draw_line. cbv zeta.
  destruct (negb _).
  - destruct (if x1 >? x2 then _ else _) as [xa xb].
    apply for_loop_safe; [|done]. intros x s Hs.
    destruct ((0 <=? x) && _) eqn:Hgx; [|exact Hs].
    destruct (if _ >? _ then _ else _) as [sa sb].
    apply for_loop_safe; [|done]. intros y s' Hs'.
    pose proof (guarded_store_safe pixels pw ph x y color s' Hbuf Hs') as H.
    rewrite Hgx in H. exact H.
  - destruct ((0 <=? x1) && _) eqn:Hgx; [|done].
    destruct (if y1 >? y2 then _ else _) as [ya yb].
    apply for_loop_safe; [|done]. intros y s' Hs'.
    pose proof (guarded_store_safe pixels pw ph x1 y color s' Hbuf Hs') as H.
    rewrite Hgx in H. exact H.
Qed.

(** C10.  For a buffer of exactly [width * height] elements whose width
    and height are representable as [int]s, the index [y*width + x] the
    primitives compute behind their bounds tests satisfies
    [0 <= x < width], [0 <= y < height] and lies below [width * height]; and
    whatever the arguments and the fuel, no run of [fill_rect], [fill_circle]
    or [draw_line] ends in an out-of-bounds access. *)
Theorem primitives_stay_in_bounds pixels width height :
  buffer_ok pixels width height -> width <= INT_MAX -> height <= INT_MAX ->
  (forall x y,
     (0 <=? x) && (x <? int_of_size width) = true ->
     (0 <=? y) && (y <? int_of_size height) = true ->
     0 <= x < width /\ 0 <= y < height /\
     size_add (size_mul (size_of_int y) width) (size_of_int x) = y * width + x /\
     y * width + x < width * height /\
     (pixel_index width x y < length pixels)%nat) /\
  (forall fuel x0 y0 w h color,
     opencad_fill_rect fuel pixels width height x0 y0 w h color <> OutOfBounds) /\
  (forall fuel cx cy r color,
     opencad_fill_circle fuel pixels width height cx cy r color <> OutOfBounds) /\
  (forall fuel x1 y1 x2 y2 color,
     opencad_draw_line fuel pixels width height x1 y1 x2 y2 color <> OutOfBounds).
Proof.
  intros Hbuf Bw Bh. pose proof Hbuf as (Hw & Hh & Hlen & Hmax).
  split; [|split; [|split]].
  - intros x y Hgx Hgy.
    apply andb_true_iff in Hgx as [Hx1 Hx2]. apply andb_true_iff in Hgy as [Hy1 Hy2].
    apply Z.leb_le in Hx1, Hy1. apply Z.ltb_lt in Hx2, Hy2.
    pose proof (int_of_size_le width Hw). pose proof (int_of_size_le height Hh).
    destruct (pixel_address pixels width height x y Hbuf) as [Ha Hlt]; [lia|lia|].
    split; [lia|]. split; [lia|]. split; [exact Ha|]. split; [nia | exact Hlt].
  - intros fuel x0 y0 w h color He.
    pose proof (fill_rect_safe fuel pixels width height x0 y0 w h color Hbuf) as Hs.
    rewrite He in Hs. exact Hs.
  - intros fuel cx cy r color He.
    pose proof (fill_circle_safe fuel pixels width height cx cy r color Hbuf) as Hs.
    rewrite He in Hs. exact Hs.
  - intros fuel x1 y1 x2 y2 color He.
    pose proof (draw_line_safe fuel pixels width height x1 y1 x2 y2 color Hbuf) as Hs.
    rewrite He in Hs. exact Hs.
Qed.

Lemma primitives_stay_in_bounds_witness :
  buffer_ok (replicate 12 0) 4 3 /\
  (forall x y,
     (0 <=? x) && (x <? int_of_size 4) = true ->
     (0 <=? y) && (y <? int_of_size 3) = true ->
     0 <= x < 4 /\ 0 <= y < 3 /\
     size_add (size_mul (size_of_int y) 4) (size_of_int x) = y * 4 + x /\
     y * 4 + x < 4 * 3 /\
     (pixel_index 4 x y < length (replicate 12 0%Z))%nat) /\
  (forall fuel x0 y0 w h color,
     opencad_fill_rect fuel (replicate 12 0) 4 3 x0 y0 w h color <> OutOfBounds) /\
  (forall fuel cx cy r color,
     opencad_fill_circle fuel (replicate 12 0) 4 3 cx cy r color <> OutOfBounds) /\
  (forall fuel x1 y1 x2 y2 color,
     opencad_draw_line fuel (replicate 12 0) 4 3 x1 y1 x2 y2 color <> OutOfBounds).
Proof.
  assert (Hb : buffer_ok (replicate 12 0) 4 3)
    by (unfold buffer_ok, SIZE_MAX; simpl; lia).
  split; [exact Hb|].
  apply (primitives_stay_in_bounds (replicate 12 0) 4 3 Hb); unfold INT_MAX; lia.
Defined.

(** ** [fill] *)

Lemma fill_paints fuel pixels width height color :
  buffer_ok pixels width height -> width * height < Z.of_nat fuel ->
  paints (length pixels) color
    (fun i => existsb (fun k => Nat.eqb i (Z.to_nat k)) (seqZ 0 (width * height)))
    (fun s => opencad_fill fuel s width height color).
Proof.
  intros (Hw & Hh & Hlen & Hmax) Hfuel. unfold opencad_fill.
  assert (Hn : 0 <= width * height) by nia.
  unfold size_mul.
  rewrite (size_wrap_id (width * height)) by (unfold is_size; lia).
  assert (Hm : seqZ 0 (width * height) = seqZ 0 (Z.of_nat (length pixels))).
  { by rewrite Hlen. }
  rewrite Hm.
  apply (paints_for (length pixels) color
           (fun i => i <? width * height) size_succ
           (fun i pixels => store pixels i color)
           (fun k i => Nat.eqb i (Z.to_nat k)) (length pixels) 0 fuel).
  - intros k Hk. split; [apply Z.ltb_lt; lia|].
    unfold size_succ, size_add. apply size_wrap_id.
    unfold is_size, SIZE_MAX in *. lia.
  - apply Z.ltb_ge. lia.
  - intros k Hk. apply paints_store. lia.
  - lia.
Qed.

(** C7.  For a buffer of positive width and height, [fill] returns, and
    afterwards reading any index [0 <= i < width*height] gives the fill
    colour. *)
Theorem fill_reads_color fuel pixels width height color :
  buffer_ok pixels width height -> 0 < width -> 0 < height ->
  width * height < Z.of_nat fuel ->
  exists pixels',
    opencad_fill fuel pixels width height color = Ok pixels' /\
    length pixels' = length pixels /\
    forall i, 0 <= i < width * height -> load pixels' i = Ok color.
Proof.
  intros Hbuf Hw Hh Hfuel. pose proof Hbuf as (_ & _ & Hlen & _).
  destruct (fill_paints fuel pixels width height color Hbuf Hfuel)
    with (s := pixels) as (pixels' & Hrun & Hl & Hp); [done|].
  exists pixels'. split; [done|]. split; [done|].
  intros i Hi. unfold load.
  destruct (lookup_lt_is_Some_2 pixels (Z.to_nat i) ltac:(lia)) as [v Hv].
  rewrite (Hp _ _ Hv).
  assert (He : existsb (fun k => Nat.eqb (Z.to_nat i) (Z.to_nat k))
                 (seqZ 0 (width * height)) = true).
  { apply existsb_seqZ. exists i. split; [lia|]. by apply Nat.eqb_eq. }
  by rewrite He.
Qed.

Lemma fill_reads_color_witness :
  buffer_ok [1; 2; 3; 4; 5; 6] 3 2 /\
  exists pixels',
    opencad_fill 7 [1; 2; 3; 4; 5; 6] 3 2 9 = Ok pixels' /\
    length pixels' = length [1; 2; 3; 4; 5; 6] /\
    forall i, 0 <= i < 3 * 2 -> load pixels' i = Ok 9.
Proof.
  assert (Hb : buffer_ok [1; 2; 3; 4; 5; 6] 3 2)
    by (unfold buffer_ok, SIZE_MAX; simpl; lia).
  split; [exact Hb|].
  apply (fill_reads_color 7 [1; 2; 3; 4; 5; 6] 3 2 9 Hb); lia.
Defined.

(** ** [save_to_ppm_file] *)

Lemma numbered_app {A : Type} k (a b : list A) :
  numbered k (a ++ b) = numbered k a ++ numbered (k + length a) b.
Proof.
  revert k. induction a as [|x a IH]; intros k; simpl.
  - by rewrite Nat.add_0_r.
  - rewrite IH. by replace (S k + length a)%nat with (k + S (length a))%nat by lia.
Qed.

Lemma numbered_snd {A : Type} k (l : list A) : map snd (numbered k l) = l.
Proof. revert k. induction l as [|x l IH]; intros k; simpl; [done|]. by rewrite IH. Qed.

(** Transmitting two runs of writes one after the other. *)
Lemma transmit_app env a b bytes :
  transmit env (a ++ b) bytes =
    match transmit env a bytes with
    | (bytes', None) => transmit env b bytes'
    | (bytes', Some e) => (bytes', Some e)
    end.
Proof.
  revert bytes. induction a as [|[k x] a IH]; intros bytes; simpl; [done|].
  destruct (write_fails env k) as [[e n]|]; [done|]. apply IH.
Qed.

(** What reaches the file extends what was there and is a prefix of what
    was written. *)
Lemma transmit_prefix env writes bytes :
  bytes `prefix_of` (transmit env writes bytes).1 /\
  (transmit env writes bytes).1 `prefix_of` bytes ++ concat (map snd writes).
Proof.
  revert bytes. induction writes as [|[k x] writes IH]; intros bytes; simpl.
  - rewrite app_nil_r. done.
  - destruct (write_fails env k) as [[e n]|]; simpl.
    + split; [by apply prefix_app_r|].
      apply prefix_app. apply prefix_app_r. apply prefix_take.
    + destruct (IH (bytes ++ x)) as [H1 H2]. split.
      * etrans; [|exact H1]. by apply prefix_app_r.
      * by rewrite <- app_assoc in H2.
Qed.

(** When the device fails on none of them, all the writes reach the file. *)
Lemma transmit_ok env s l bytes :
  (forall k, (s <= k < s + length l)%nat -> write_fails env k = None) ->
  transmit env (numbered s l) bytes = (bytes ++ concat l, None).
Proof.
  revert s bytes. induction l as [|x l IH]; intros s bytes Hall; simpl.
  - by rewrite app_nil_r.
  - rewrite (Hall s) by (simpl; lia). rewrite IH.
    + by rewrite <- app_assoc.
    + intros k Hk. apply Hall. simpl. lia.
Qed.

Lemma transmit_none env s l bytes :
  (transmit env (numbered s l) bytes).2 = None ->
  forall k, (s <= k < s + length l)%nat -> write_fails env k = None.
Proof.
  revert s bytes. induction l as [|x l IH]; intros s bytes Hnone k Hk; simpl in *.
  - lia.
  - destruct (write_fails env s) as [[e n]|] eqn:Hs; [discriminate|].
    destruct (decide (k = s)) as [->|Hne]; [done|].
    apply (IH (S s) (bytes ++ x) Hnone). lia.
Qed.

(** The first write on which the device fails decides the code. *)
Lemma transmit_fails env s l bytes k e n :
  (s <= k < s + length l)%nat ->
  (forall k', (s <= k' < k)%nat -> write_fails env k' = None) ->
  write_fails env k = Some (e, n) ->
  (transmit env (numbered s l) bytes).2 = Some e.
Proof.
  revert s bytes. induction l as [|x l IH]; intros s bytes Hk Hbefore Hfail; simpl in *.
  - lia.
  - destruct (decide (k = s)) as [->|Hne].
    + by rewrite Hfail.
    + rewrite (Hbefore s) by lia. apply IH; [lia| |done].
      intros k' Hk'. apply Hbefore. lia.
Qed.

Lemma ppm_writes_length pixels width height :
  length (ppm_writes pixels width height) = S (length pixels).
Proof. unfold ppm_writes. simpl. by rewrite length_map. Qed.

Lemma ppm_writes_concat pixels width height :
  concat (ppm_writes pixels width height) =
  ppm_header width height ++ flat_map pixel_bytes pixels.
Proof. unfold ppm_writes. simpl. by rewrite flat_map_concat_map. Qed.

(** The device's answer to the first writes of a run is its answer to
    all of them as soon as it has failed. *)
Lemma device_stays_failed env pixels width height n m e :
  (n <= m)%nat ->
  (device env pixels width height n).2 = Some e ->
  device env pixels width height m = device env pixels width height n.
Proof.
  intros Hnm Hfail. unfold device in *.
  replace m with (n + (m - n))%nat by lia.
  rewrite <- take_take_drop, numbered_app, transmit_app.
  destruct (transmit env (numbered 0 (take n (ppm_writes pixels width height))) [])
    as [d [e'|]]; [done|discriminate].
Qed.

(** One write of the run, made on a stream that has reported no failure
    and that holds, in the file and in its buffer, what the writes before
    it have left: stored, transmitted, or reported to fail. *)
Lemma fwrite_next env pixels width height k bytes w f :
  disk w = Some f -> error f = false -> nwrites f = k ->
  ppm_writes pixels width height !! k = Some bytes ->
  transmit env (pending f) (data f) = device env pixels width height k ->
  exists f',
    disk (fwrite env bytes w) = Some f' /\ nwrites f' = S k /\
    is_open f' = is_open f /\
    match (if buffered env k then None
           else (device env pixels width height (S k)).2) with
    | None =>
        errno (fwrite env bytes w) = errno w /\ error f' = false /\
        transmit env (pending f') (data f') = device env pixels width height (S k)
    | Some e =>
        errno (fwrite env bytes w) = e /\ error f' = true /\ pending f' = [] /\
        device env pixels width height (S k) = (data f', Some e)
    end.
Proof.
  intros Hd He Hn Hk Hinv.
  assert (Hnext : device env pixels width height (S k) =
                  transmit env (pending f ++ [(k, bytes)]) (data f)).
  { unfold device. rewrite (take_S_r _ _ _ Hk), numbered_app, !transmit_app.
    unfold device in Hinv. rewrite Hinv.
    rewrite length_take_le by (apply Nat.lt_le_incl, (lookup_lt_Some _ _ _ Hk)).
    done. }
  unfold fwrite. rewrite Hd, Hn.
  destruct (buffered env k).
  - eexists. split; [reflexivity|]. cbn [nwrites is_open errno error pending data].
    repeat split; auto; try by rewrite Hnext.
  - unfold flush. cbn [disk pending data]. rewrite <- Hnext.
    destruct (device env pixels width height (S k)) as [d [e|]]; cbn [snd].
    + eexists. split; [reflexivity|]. cbn [nwrites is_open errno error pending data].
      repeat split; auto.
    + eexists. split; [reflexivity|]. cbn [nwrites is_open errno error pending data].
      repeat split; auto.
Qed.

(** The pixel loop, entered at pixel [j] on a stream that has reported no
    failure: either no write reports one, or the loop is left at the first
    write that transmits to a device that fails. *)
Lemma ppm_loop env pixels width height :
  buffer_ok pixels width height ->
  forall (m j fuel : nat) w f,
    (j + m = length pixels)%nat -> (m < fuel)%nat ->
    disk w = Some f -> error f = false -> nwrites f = S j ->
    transmit env (pending f) (data f) = device env pixels width height (S j) ->
    exists r,
      for_loop_defer fuel (fun i => i <? width * height) size_succ
        (fun i w =>
           pixel ← load pixels i;
           let bytes := pixel_bytes pixel in
           let w := fwrite env bytes w in
           if ferror w then return_defer (errno w) w
           else Ok (Continue w))
        (Z.of_nat j) w = Ok r /\
      match r with
      | Continue w' =>
          errno w' = errno w /\
          (forall i, (j < i <= length pixels)%nat -> buffered env i = false ->
             (device env pixels width height (S i)).2 = None) /\
          exists f', disk w' = Some f' /\ error f' = false /\
            nwrites f' = S (length pixels) /\ is_open f' = is_open f /\
            transmit env (pending f') (data f') =
              device env pixels width height (S (length pixels))
      | Defer e w' =>
          exists i, (j < i <= length pixels)%nat /\ buffered env i = false /\
            (forall i', (j < i' < i)%nat -> buffered env i' = false ->
               (device env pixels width height (S i')).2 = None) /\
            exists f', disk w' = Some f' /\ errno w' = e /\ pending f' = [] /\
              error f' = true /\ nwrites f' = S i /\ is_open f' = is_open f /\
              device env pixels width height (S i) = (data f', Some e)
      end.
Proof.
  intros (Hw & Hh & Hlen & Hmax).
  induction m as [|m IH]; intros j fuel w f Hj Hfuel Hd He Hn Hinv.
  - destruct fuel as [|fuel]; [lia|]. simpl.
    destruct (Z.ltb_spec (Z.of_nat j) (width * height)) as [Hlt|_]; [lia|].
    exists (Continue w). split; [done|]. split; [done|].
    split; [intros i Hi; lia|].
    assert (j = length pixels) as -> by lia.
    exists f. repeat split; auto.
  - destruct fuel as [|fuel]; [lia|]. simpl.
    destruct (Z.ltb_spec (Z.of_nat j) (width * height)) as [_|Hge]; [|lia].
    unfold load. rewrite Nat2Z.id.
    destruct (lookup_lt_is_Some_2 pixels j ltac:(lia)) as [p Hp].
    rewrite Hp. simpl.
    assert (Hnext : size_succ (Z.of_nat j) = Z.of_nat (S j)).
    { unfold size_succ, size_add. rewrite size_wrap_id; [lia|].
      unfold is_size. lia. }
    assert (Hk : ppm_writes pixels width height !! S j = Some (pixel_bytes p)).
    { unfold ppm_writes. simpl. by rewrite list_lookup_fmap, Hp. }
    destruct (fwrite_next env pixels width height (S j) (pixel_bytes p) w f
                Hd He Hn Hk Hinv) as (f1 & Hd1 & Hn1 & Ho1 & Hcase).
    unfold ferror. rewrite Hd1.
    destruct (buffered env (S j)) eqn:Hbuf;
      [|destruct ((device env pixels width height (S (S j))).2) as [e|] eqn:Hdev].
    + destruct Hcase as (Herr & He1 & Hinv1). rewrite He1, Hnext.
      destruct (IH (S j) fuel (fwrite env (pixel_bytes p) w) f1)
        as (r & Hr & Hspec); try done; try lia.
      exists r. split; [exact Hr|]. destruct r as [w'|e w'].
      * destruct Hspec as (Herr' & Hnone & f' & Hd' & He' & Hn' & Ho' & Hinv').
        split; [congruence|]. split.
        { intros i Hi Hb. destruct (decide (i = S j)) as [->|Hne]; [congruence|].
          apply Hnone; [lia|done]. }
        exists f'. repeat split; auto. congruence.
      * destruct Hspec as (i & Hi & Hb & Hnone & f' & Hd' & Herr' & Hp' & He' & Hn' & Ho' & Hdev').
        exists i. split; [lia|]. split; [done|]. split.
        { intros i' Hi' Hb'. destruct (decide (i' = S j)) as [->|Hne]; [congruence|].
          apply Hnone; [lia|done]. }
        exists f'. repeat split; auto. congruence.
    + destruct Hcase as (Herr & He1 & Hp1 & Hdev1). rewrite He1.
      eexists. split; [reflexivity|].
      exists (S j). split; [lia|]. split; [done|]. split; [intros i' Hi'; lia|].
      exists f1. repeat split; auto; congruence.
    + destruct Hcase as (Herr & He1 & Hinv1). rewrite He1, Hnext.
      destruct (IH (S j) fuel (fwrite env (pixel_bytes p) w) f1)
        as (r & Hr & Hspec); try done; try lia.
      exists r. split; [exact Hr|]. destruct r as [w'|e w'].
      * destruct Hspec as (Herr' & Hnone & f' & Hd' & He' & Hn' & Ho' & Hinv').
        split; [congruence|]. split.
        { intros i Hi Hb. destruct (decide (i = S j)) as [->|Hne]; [done|].
          apply Hnone; [lia|done]. }
        exists f'. repeat split; auto. congruence.
      * destruct Hspec as (i & Hi & Hb & Hnone & f' & Hd' & Herr' & Hp' & He' & Hn' & Ho' & Hdev').
        exists i. split; [lia|]. split; [done|]. split.
        { intros i' Hi' Hb'. destruct (decide (i' = S j)) as [->|Hne]; [done|].
          apply Hnone; [lia|done]. }
        exists f'. repeat split; auto. congruence.
Qed.

(** [fclose] on an open stream: what the buffer held is transmitted, and
    the stream is closed whether or not the device took it. *)
Lemma fclose_run env w f :
  disk w = Some f ->
  exists f',
    disk (fclose env w).2 = Some f' /\ is_open f' = false /\ pending f' = [] /\
    nwrites f' = nwrites f /\
    data f' = (transmit env (pending f) (data f)).1 /\
    match (transmit env (pending f) (data f)).2 with
    | None =>
        (fclose env w).1 = 0 /\ errno (fclose env w).2 = errno w /\
        error f' = error f
    | Some e =>
        (fclose env w).1 = EOF /\ errno (fclose env w).2 = e /\ error f' = true
    end.
Proof.
  intros Hd. unfold fclose, flush. rewrite Hd.
  destruct (transmit env (pending f) (data f)) as [d [e|]]; cbn [disk fst snd];
    eexists; (split; [reflexivity|]); cbn [is_open pending nwrites data error errno];
    repeat split; auto.
Qed.

(** Every run of the writer, by what the library and the device do to it:
    the file ends up with what the device takes of the writes in order, and
    the result is the code of a failure only if a write of the run
    transmitted to the device when it failed. *)
Lemma save_run env fuel pixels width height w :
  buffer_ok pixels width height -> width * height < Z.of_nat fuel ->
  exists res w',
    opencad_save_to_ppm_file env fuel pixels width height w = Ok (res, w') /\
    match fopen_fails env with
    | Some e => res = e /\ errno w' = e /\ disk w' = disk w
    | None =>
        exists f, disk w' = Some f /\ is_open f = false /\ pending f = [] /\
          data f = (device env pixels width height (S (length pixels))).1 /\
          ((res = 0 /\ nwrites f = S (length pixels) /\
            (forall i, (i <= length pixels)%nat -> buffered env i = false ->
               (device env pixels width height (S i)).2 = None) /\
            match (device env pixels width height (S (length pixels))).2 with
            | None => errno w' = errno w /\ error f = false
            | Some e => errno w' = e /\ error f = true
            end)
           \/
           (exists i, (i <= length pixels)%nat /\ buffered env i = false /\
              (forall i', (i' < i)%nat -> buffered env i' = false ->
                 (device env pixels width height (S i')).2 = None) /\
              (device env pixels width height (S i)).2 = Some res /\
              nwrites f = S i /\ errno w' = res /\ error f = true))
    end.
Proof.
  intros Hbuf Hfuel. pose proof Hbuf as (Hw & Hh & Hlen & Hmax).
  assert (Hbound : size_mul width height = width * height).
  { unfold size_mul. apply size_wrap_id. unfold is_size. nia. }
  unfold opencad_save_to_ppm_file, fopen. rewrite Hbound.
  match goal with
  | |- context [for_loop_defer fuel ?c ?n ?b] => set (body := b)
  end.
  destruct (fopen_fails env) as [e|] eqn:Hopen.
  - simpl. eexists _, _. split; [reflexivity|]. by repeat split.
  - cbn [negb]. cbv iota.
    set (w1 := {| errno := errno w;
                  disk := Some {| data := []; pending := []; error := false;
                                  nwrites := 0; is_open := true |} |}).
    destruct (fwrite_next env pixels width height 0%nat (ppm_header width height) w1
                {| data := []; pending := []; error := false;
                   nwrites := 0; is_open := true |})
      as (f1 & Hd1 & Hn1 & Ho1 & Hcase); try done.
    cbv zeta. unfold ferror. rewrite Hd1.
    assert (Hfailed : forall i e f2,
      (i <= length pixels)%nat -> is_open f2 = true -> pending f2 = [] ->
      error f2 = true -> nwrites f2 = S i ->
      device env pixels width height (S i) = (data f2, Some e) ->
      forall w2, disk w2 = Some f2 -> errno w2 = e ->
      exists f, disk (fclose env w2).2 = Some f /\ is_open f = false /\
        pending f = [] /\
        data f = (device env pixels width height (S (length pixels))).1 /\
        nwrites f = S i /\ errno (fclose env w2).2 = e /\ error f = true).
    { intros i e f2 Hi Ho2 Hp2 He2 Hn2 Hdev2 w2 Hd2 Herr2.
      destruct (fclose_run env w2 f2 Hd2) as (f & Hd & Ho & Hp & Hn & Hdata & Hc).
      rewrite Hp2 in Hdata, Hc. cbn [transmit fst snd] in Hdata, Hc.
      destruct Hc as (_ & Herr & He).
      exists f. repeat split; auto; try congruence.
      rewrite (device_stays_failed env pixels width height (S i) (S (length pixels)) e)
        by (try lia; by rewrite Hdev2).
      by rewrite Hdev2. }
    destruct (if buffered env 0 then None
              else (device env pixels width height 1).2) as [e|] eqn:Hfirst.
    + destruct Hcase as (Herr1 & He1 & Hp1 & Hdev1). rewrite He1.
      unfold return_defer. cbn [mbind result_bind].
      destruct (buffered env 0) eqn:Hb0; [discriminate|].
      destruct (Hfailed 0%nat e f1 ltac:(lia) Ho1 Hp1 He1 Hn1 Hdev1
                  (fwrite env (ppm_header width height) w1) Hd1 Herr1)
        as (f & Hd & Ho & Hp & Hdata & Hn & Herr & He).
      eexists _, _. split; [reflexivity|].
      exists f. split; [exact Hd|]. split; [done|]. split; [done|]. split; [done|].
      right. exists 0%nat. split; [lia|]. split; [done|].
      split; [intros i' Hi'; lia|]. rewrite Herr1, Hdev1. repeat split; auto.
    + destruct Hcase as (Herr1 & He1 & Hinv1). rewrite He1.
      destruct (ppm_loop env pixels width height Hbuf (length pixels) 0%nat fuel
                  (fwrite env (ppm_header width height) w1) f1)
        as (r & Hr & Hspec); try done; try lia.
      assert (Hr' : for_loop_defer fuel (fun i => i <? width * height) size_succ body 0
                      (fwrite env (ppm_header width height) w1) = Ok r) by exact Hr.
      rewrite Hr'. cbn [mbind result_bind].
      assert (Hzero : forall i, (i <= 0)%nat -> buffered env i = false ->
                (device env pixels width height (S i)).2 = None).
      { intros i Hi Hb. assert (i = 0%nat) as -> by lia.
        by rewrite Hb in Hfirst. }
      destruct r as [w'|e w'].
      * destruct Hspec as (Herr' & Hnone & f' & Hd' & He' & Hn' & Ho' & Hinv').
        destruct (fclose_run env w' f' Hd') as (f & Hd & Ho & Hp & Hn & Hdata & Hc).
        rewrite Hinv' in Hdata, Hc.
        eexists _, _. split; [reflexivity|].
        exists f. split; [exact Hd|]. split; [done|]. split; [done|]. split; [done|].
        left. split; [done|]. split; [congruence|]. split.
        { intros i Hi Hb. destruct (decide (i = 0%nat)) as [->|Hne].
          - by apply Hzero.
          - apply Hnone; [lia|done]. }
        destruct ((device env pixels width height (S (length pixels))).2) as [e|].
        -- destruct Hc as (_ & Herr & He). done.
        -- destruct Hc as (_ & Herr & He). split; [|congruence].
           rewrite Herr, Herr', Herr1. done.
      * destruct Hspec as (i & Hi & Hb & Hnone & f' & Hd' & Herr' & Hp' & He' & Hn' & Ho' & Hdev').
        destruct (Hfailed i e f' ltac:(lia) ltac:(by rewrite Ho', Ho1) Hp' He' Hn' Hdev' w' Hd' Herr')
          as (f & Hd & Ho & Hp & Hdata & Hn & Herr & He).
        eexists _, _. split; [reflexivity|].
        exists f. split; [exact Hd|]. split; [done|]. split; [done|]. split; [done|].
        right. exists i. split; [lia|]. split; [done|]. split.
        { intros i' Hi' Hb'. destruct (decide (i' = 0%nat)) as [->|Hne].
          - by apply Hzero.
          - apply Hnone; [lia|done]. }
        rewrite Hdev'. repeat split; auto.
Qed.

(** What makes a transmission fail is a write on which the device fails,
    the first of those transmitted. *)
Lemma transmit_some env s l bytes e :
  (transmit env (numbered s l) bytes).2 = Some e ->
  exists k n, (s <= k < s + length l)%nat /\
    (forall k', (s <= k' < k)%nat -> write_fails env k' = None) /\
    write_fails env k = Some (e, n).
Proof.
  revert s bytes. induction l as [|x l IH]; intros s bytes Hfail; simpl in *.
  - discriminate.
  - destruct (write_fails env s) as [[e' n]|] eqn:Hs.
    + injection Hfail as ->. exists s, n. split; [lia|]. split; [|done].
      intros k' Hk'. lia.
    + destruct (IH (S s) (bytes ++ x) Hfail) as (k & n & Hk & Hbefore & Hw).
      exists k, n. split; [lia|]. split; [|done].
      intros k' Hk'. destruct (decide (k' = s)) as [->|Hne]; [done|].
      apply Hbefore. lia.
Qed.

(** A device that fails on no write takes them all. *)
Lemma device_ok env pixels width height n :
  (forall k, (k < n)%nat -> write_fails env k = None) ->
  device env pixels width height n =
    (concat (take n (ppm_writes pixels width height)), None).
Proof.
  intros Hall. unfold device. rewrite transmit_ok; [done|].
  intros k Hk. apply Hall. rewrite length_take in Hk. lia.
Qed.

(** A run on which every call succeeds writes the complete image. *)
Lemma save_complete env fuel pixels width height w :
  buffer_ok pixels width height -> width * height < Z.of_nat fuel ->
  fopen_fails env = None -> (forall k, write_fails env k = None) ->
  exists w' f,
    opencad_save_to_ppm_file env fuel pixels width height w = Ok (0, w') /\
    disk w' = Some f /\
    data f = ppm_header width height ++ flat_map pixel_bytes pixels.
Proof.
  intros Hbuf Hfuel Hopen Hall.
  destruct (save_run env fuel pixels width height w Hbuf Hfuel)
    as (res & w' & Hrun & Hspec).
  rewrite Hopen in Hspec.
  destruct Hspec as (f & Hd & _ & _ & Hdata & Hcase).
  assert (Hres : res = 0).
  { destruct Hcase as [(-> & _)|(i & _ & _ & _ & Hfail & _)]; [done|].
    rewrite device_ok in Hfail by (intros k _; apply Hall). discriminate. }
  subst res. exists w', f. split; [done|]. split; [done|].
  rewrite Hdata, device_ok by (intros k _; apply Hall). cbn [fst].
  rewrite take_ge by (rewrite ppm_writes_length; lia).
  apply ppm_writes_concat.
Qed.

(** The three bytes of a pixel are its bits 0-7, 8-15 and 16-23. *)
Lemma pixel_bytes_channels pixel :
  pixel_bytes pixel =
    [ ascii_of_N (Z.to_N (pixel mod 256));
      ascii_of_N (Z.to_N (pixel / 256 mod 256));
      ascii_of_N (Z.to_N (pixel / 65536 mod 256)) ].
Proof.
  unfold pixel_bytes, uint8.
  change 255 with (Z.ones 8). rewrite !Z.land_ones by lia.
  rewrite !Z.shiftr_div_pow2 by lia.
  change (2 ^ (8 * 0)) with 1. change (2 ^ (8 * 1)) with 256.
  change (2 ^ (8 * 2)) with 65536. change (2 ^ 8) with 256.
  by rewrite Z.div_1_r.
Qed.

(** They do not depend on bits 24-31. *)
Lemma pixel_bytes_alpha p q :
  p mod 16777216 = q mod 16777216 -> pixel_bytes p = pixel_bytes q.
Proof.
  intros Hpq. rewrite !pixel_bytes_channels.
  assert (H0 : p mod 256 = q mod 256) by (Z.div_mod_to_equations; lia).
  assert (H1 : p / 256 mod 256 = q / 256 mod 256) by (Z.div_mod_to_equations; lia).
  assert (H2 : p / 65536 mod 256 = q / 65536 mod 256)
    by (Z.div_mod_to_equations; lia).
  by rewrite H0, H1, H2.
Qed.

Lemma flat_map_pixel_bytes_lookup pixels i pixel :
  pixels !! i = Some pixel ->
  flat_map pixel_bytes pixels !! (3 * i)%nat =
    Some (ascii_of_N (Z.to_N (pixel mod 256))) /\
  flat_map pixel_bytes pixels !! (3 * i + 1)%nat =
    Some (ascii_of_N (Z.to_N (pixel / 256 mod 256))) /\
  flat_map pixel_bytes pixels !! (3 * i + 2)%nat =
    Some (ascii_of_N (Z.to_N (pixel / 65536 mod 256))).
Proof.
  revert i. induction pixels as [|p pixels IH]; intros i Hi; [done|].
  cbn [flat_map]. rewrite (pixel_bytes_channels p).
  destruct i as [|i].
  - injection Hi as ->. done.
  - replace (3 * S i)%nat with (3 + 3 * i)%nat by lia.
    replace (3 + 3 * i + 1)%nat with (3 + (3 * i + 1))%nat by lia.
    replace (3 + 3 * i + 2)%nat with (3 + (3 * i + 2))%nat by lia.
    apply (IH i Hi).
Qed.

Lemma flat_map_pixel_bytes_length pixels :
  length (flat_map pixel_bytes pixels) = (3 * length pixels)%nat.
Proof.
  induction pixels as [|p pixels IH]; [done|].
  cbn [flat_map]. rewrite length_app, IH. simpl. lia.
Qed.

Lemma flat_map_pixel_bytes_alpha pixels pixels2 :
  Forall2 (fun p q => p mod 16777216 = q mod 16777216) pixels pixels2 ->
  flat_map pixel_bytes pixels = flat_map pixel_bytes pixels2.
Proof.
  induction 1 as [|p q l l2 Hpq _ IH]; [done|].
  cbn [flat_map]. by rewrite (pixel_bytes_alpha p q Hpq), IH.
Qed.

(** The specification's round trip: the twelve bytes written for the 2x2
    buffer are red, green, blue and grey, alpha dropped. *)
Example rgba_2x2_bytes :
  map (fun c => Z.of_N (N_of_ascii c)) (flat_map pixel_bytes rgba_2x2) =
  [255; 0; 0; 0; 255; 0; 0; 0; 255; 128; 128; 128].
Proof. reflexivity. Qed.

(** C1 (amended).  When the file opens and the header is written, the
    file begins with [P6], a newline, the width in decimal, a space, the
    height in decimal, a space, [255] and a newline -- the maximum value is
    separated from the height by a space, not by a newline -- whatever
    happens to the pixel writes after it. *)
Theorem save_writes_header env fuel pixels width height w :
  buffer_ok pixels width height -> width * height < Z.of_nat fuel ->
  fopen_fails env = None -> write_fails env 0 = None ->
  exists res w' f,
    opencad_save_to_ppm_file env fuel pixels width height w = Ok (res, w') /\
    disk w' = Some f /\
    (list_ascii_of_string "P6" ++ [newline] ++ format_zu width ++ [space] ++
     format_zu height ++ [space] ++ list_ascii_of_string "255" ++ [newline])
      `prefix_of` data f.
Proof.
  intros Hbuf Hfuel Hopen Hw0.
  destruct (save_run env fuel pixels width height w Hbuf Hfuel)
    as (res & w' & Hrun & Hspec).
  rewrite Hopen in Hspec. destruct Hspec as (f & Hd & _ & _ & Hdata & _).
  exists res, w', f. split; [done|]. split; [done|].
  change (ppm_header width height `prefix_of` data f).
  rewrite Hdata. unfold device, ppm_writes.
  rewrite firstn_cons. cbn [numbered transmit]. rewrite Hw0.
  apply (transmit_prefix env _ ([] ++ ppm_header width height)).
Qed.

Lemma save_writes_header_witness :
  buffer_ok rgba_2x2 2 2 /\
  exists res w' f,
    opencad_save_to_ppm_file io_ok 5
      rgba_2x2 2 2 world0 = Ok (res, w') /\
    disk w' = Some f /\
    (list_ascii_of_string "P6" ++ [newline] ++ format_zu 2 ++ [space] ++
     format_zu 2 ++ [space] ++ list_ascii_of_string "255" ++ [newline])
      `prefix_of` data f.
Proof.
  assert (Hb : buffer_ok rgba_2x2 2 2)
    by (unfold buffer_ok, SIZE_MAX; simpl; lia).
  split; [exact Hb|].
  apply (save_writes_header io_ok 5
           rgba_2x2 2 2 world0 Hb);
    [lia | reflexivity | reflexivity].
Defined.

(** C1 as stated fails: for the 2x2 buffer of the specification the file
    is [P6\n2 2 255\n] followed by the twelve pixel bytes; its seventh byte
    is a space, so it does not begin with [P6\n2 2\n255\n]. *)
Lemma save_writes_header_counterexample :
  exists w' f,
    opencad_save_to_ppm_file io_ok 5
      rgba_2x2 2 2 world0 = Ok (0, w') /\
    disk w' = Some f /\
    data f = list_ascii_of_string "P6" ++ [newline] ++
             list_ascii_of_string "2 2 255" ++ [newline] ++
             flat_map pixel_bytes rgba_2x2 /\
    data f !! 6%nat = Some space /\
    ~ (list_ascii_of_string "P6" ++ [newline] ++ format_zu 2 ++ [space] ++
       format_zu 2 ++ [newline] ++ list_ascii_of_string "255" ++ [newline])
        `prefix_of` data f.
Proof.
  eexists _, _. split; [vm_compute; reflexivity|].
  split; [reflexivity|]. split; [reflexivity|]. split; [reflexivity|].
  intros [t Ht]. vm_compute in Ht. discriminate.
Qed.

(** C2.  When every call succeeds, the file is the header followed by
    exactly [width*height] three-byte triplets in buffer order; the bytes of
    pixel [i] are bits 0-7 (red), bits 8-15 (green) and bits 16-23 (blue) of
    the packed colour, and nothing of bits 24-31 reaches the file: a buffer
    that differs in those bits only gives the same bytes. *)
Theorem save_writes_pixels env fuel pixels width height w :
  buffer_ok pixels width height -> width * height < Z.of_nat fuel ->
  fopen_fails env = None -> (forall k, write_fails env k = None) ->
  exists w' f body,
    opencad_save_to_ppm_file env fuel pixels width height w = Ok (0, w') /\
    disk w' = Some f /\
    data f = ppm_header width height ++ body /\
    Z.of_nat (length body) = 3 * (width * height) /\
    (forall i pixel, pixels !! i = Some pixel ->
       exists r g b,
         body !! (3 * i)%nat = Some r /\
         body !! (3 * i + 1)%nat = Some g /\
         body !! (3 * i + 2)%nat = Some b /\
         Z.of_N (N_of_ascii r) = pixel mod 256 /\
         Z.of_N (N_of_ascii g) = pixel / 256 mod 256 /\
         Z.of_N (N_of_ascii b) = pixel / 65536 mod 256) /\
    (forall pixels2,
       Forall2 (fun p q => p mod 16777216 = q mod 16777216) pixels pixels2 ->
       exists w2 f2,
         opencad_save_to_ppm_file env fuel pixels2 width height w = Ok (0, w2) /\
         disk w2 = Some f2 /\ data f2 = data f).
Proof.
  intros Hbuf Hfuel Hopen Hall.
  assert (Hok : forall px, buffer_ok px width height ->
    exists w' f,
      opencad_save_to_ppm_file env fuel px width height w = Ok (0, w') /\
      disk w' = Some f /\
      data f = ppm_header width height ++ flat_map pixel_bytes px).
  { intros px Hpx.
    exact (save_complete env fuel px width height w Hpx Hfuel Hopen Hall). }
  destruct (Hok pixels Hbuf) as (w' & f & Hrun & Hd & Hdata).
  pose proof Hbuf as (Hw & Hh & Hlen & Hmax).
  exists w', f, (flat_map pixel_bytes pixels).
  split; [done|]. split; [done|]. split; [done|]. split; [|split].
  - rewrite flat_map_pixel_bytes_length. lia.
  - intros i pixel Hi.
    destruct (flat_map_pixel_bytes_lookup pixels i pixel Hi) as (Hr & Hg & Hb).
    eexists _, _, _. split; [exact Hr|]. split; [exact Hg|]. split; [exact Hb|].
    assert (Hbyte : forall z, 0 <= z < 256 ->
              Z.of_N (N_of_ascii (ascii_of_N (Z.to_N z))) = z).
    { intros z Hz. rewrite N_ascii_embedding; lia. }
    rewrite !Hbyte; [done | | |]; apply Z.mod_pos_bound; lia.
  - intros pixels2 H2.
    destruct (Hok pixels2) as (w2 & f2 & Hrun2 & Hd2 & Hdata2).
    { unfold buffer_ok. rewrite <- (Forall2_length _ _ _ H2). done. }
    exists w2, f2. split; [done|]. split; [done|].
    by rewrite Hdata, Hdata2, (flat_map_pixel_bytes_alpha pixels pixels2 H2).
Qed.

Lemma save_writes_pixels_witness :
  buffer_ok rgba_2x2 2 2 /\
  exists w' f body,
    opencad_save_to_ppm_file io_ok 5
      rgba_2x2 2 2 world0 = Ok (0, w') /\
    disk w' = Some f /\
    data f = ppm_header 2 2 ++ body /\
    Z.of_nat (length body) = 3 * (2 * 2) /\
    (forall i pixel,
       rgba_2x2 !! i = Some pixel ->
       exists r g b,
         body !! (3 * i)%nat = Some r /\
         body !! (3 * i + 1)%nat = Some g /\
         body !! (3 * i + 2)%nat = Some b /\
         Z.of_N (N_of_ascii r) = pixel mod 256 /\
         Z.of_N (N_of_ascii g) = pixel / 256 mod 256 /\
         Z.of_N (N_of_ascii b) = pixel / 65536 mod 256) /\
    (forall pixels2,
       Forall2 (fun p q => p mod 16777216 = q mod 16777216)
         rgba_2x2 pixels2 ->
       exists w2 f2,
         opencad_save_to_ppm_file io_ok 5 pixels2 2 2 world0 = Ok (0, w2) /\
         disk w2 = Some f2 /\ data f2 = data f).
Proof.
  assert (Hb : buffer_ok rgba_2x2 2 2)
    by (unfold buffer_ok, SIZE_MAX; simpl; lia).
  split; [exact Hb|].
  apply (save_writes_pixels io_ok 5
           rgba_2x2 2 2 world0 Hb);
    [lia | reflexivity | intros k; reflexivity].
Defined.

(** C8.  The claim does not hold of the code: [save_to_ppm_file] reads the
    error indicator after every write, but not the result of [fclose], so a
    failure that first shows when [fclose] transmits the buffer is lost.
    The 2x2 buffer of the specification, saved through a fully buffered
    stream to a device with no space left: [fopen] succeeds, the header and
    the four pixels are stored in the buffer and no write reports a
    failure; [fclose] fails to transmit them and sets [errno] to [ENOSPC];
    [save_to_ppm_file] returns [0] and leaves an empty file. *)
Theorem save_loses_flush_failure :
  exists w' f,
    opencad_save_to_ppm_file io_device_full 5 rgba_2x2 2 2 world0 = Ok (0, w') /\
    disk w' = Some f /\ is_open f = false /\
    data f = [] /\ error f = true /\ errno w' = 28.
Proof. eexists _, _. vm_compute. repeat split. Qed.

(** A disk that fills up while the third pixel is written, behind a stream
    that transmits every write at once: the failure is reported by that
    write and returned. *)
Example disk_full_run :
  exists w',
    opencad_save_to_ppm_file io_disk_full 5
      rgba_2x2 2 2 world0 = Ok (28, w') /\
    errno w' = 28.
Proof. eexists. split; reflexivity. Qed.

(** * Further properties of the library *)

(** ** What a primitive can do to the buffer *)

Lemma repaints_refl color s : repaints color s (Ok s).
Proof. split; auto. Qed.

Lemma repaints_store color s idx : repaints color s (store s idx color).
Proof.
  unfold store. destruct (Nat.ltb_spec (Z.to_nat idx) (length s)); [|exact I].
  split; [by rewrite length_insert|]. intros i.
  destruct (decide (i = Z.to_nat idx)) as [->|Hne].
  - right. by apply list_lookup_insert_eq.
  - left. by apply list_lookup_insert_ne.
Qed.

Lemma for_loop_repaints color cond next (body : Z -> list Z -> result (list Z)) :
  (forall v s, repaints color s (body v s)) ->
  forall fuel i s, repaints color s (for_loop fuel cond next body i s).
Proof.
  intros Hbody. induction fuel as [|fuel IH]; intros i s; [exact I|].
  simpl. destruct (cond i); [|apply repaints_refl].
  pose proof (Hbody i s) as Hb.
  destruct (body i s) as [s1| |]; simpl; try exact I.
  pose proof (IH (next i) s1) as Hl.
  destruct (for_loop fuel cond next body (next i) s1) as [s2| |]; try exact I.
  destruct Hb as [Hl1 Hp1]. destruct Hl as [Hl2 Hp2].
  split; [congruence|]. intros j.
  destruct (Hp2 j) as [H2|H2]; [|by right].
  rewrite H2. apply Hp1.
Qed.

Lemma fill_rect_repaints fuel pixels pw ph x0 y0 w h color :
  repaints color pixels (opencad_fill_rect fuel pixels pw ph x0 y0 w h color).
Proof.
  unfold opencad_fill_rect. apply for_loop_repaints. intros dy s. cbv zeta.
  destruct (_ && _); [|apply repaints_refl].
  apply for_loop_repaints. intros dx s'. cbv zeta.
  destruct (_ && _); [apply repaints_store | apply repaints_refl].
Qed.

Lemma fill_circle_repaints fuel pixels pw ph cx cy r color :
  repaints color pixels (opencad_fill_circle fuel pixels pw ph cx cy r color).
Proof.
  unfold opencad_fill_circle. cbv zeta. apply for_loop_repaints. intros y s.
  destruct (_ && _); [|apply repaints_refl].
  apply for_loop_repaints. intros x s'.
  destruct (_ && _); [|apply repaints_refl].
  destruct (int_add _ _ <=? _); [apply repaints_store | apply repaints_refl].
Qed.

Lemma draw_line_repaints fuel pixels pw ph x1 y1 x2 y2 color :
  repaints color pixels (opencad_draw_line fuel pixels pw ph x1 y1 x2 y2 color).
Proof.
  unfold opencad_draw_line. cbv zeta. destruct (negb _).
  - destruct (if x1 >? x2 then _ else _) as [xa xb].
    apply for_loop_repaints. intros x s.
    destruct (_ && _); [|apply repaints_refl].
    destruct (if _ >? _ then _ else _) as [sa sb].
    apply for_loop_repaints. intros y s'.
    destruct (_ && _); [apply repaints_store | apply repaints_refl].
  - destruct (_ && _); [|apply repaints_refl].
    destruct (if y1 >? y2 then _ else _) as [ya yb].
    apply for_loop_repaints. intros y s'.
    destruct (_ && _); [apply repaints_store | apply repaints_refl].
Qed.

(** X1.  Whatever their arguments, [fill_rect], [fill_circle] and
    [draw_line] never resize the buffer and never give an element a value
    other than the colour they were passed: after a call every element is
    what it was or is that colour. *)
Theorem primitives_only_paint pixels color :
  (forall fuel pw ph x0 y0 w h pixels',
     opencad_fill_rect fuel pixels pw ph x0 y0 w h color = Ok pixels' ->
     length pixels' = length pixels /\
     forall i, pixels' !! i = pixels !! i \/ pixels' !! i = Some color) /\
  (forall fuel pw ph cx cy r pixels',
     opencad_fill_circle fuel pixels pw ph cx cy r color = Ok pixels' ->
     length pixels' = length pixels /\
     forall i, pixels' !! i = pixels !! i \/ pixels' !! i = Some color) /\
  (forall fuel pw ph x1 y1 x2 y2 pixels',
     opencad_draw_line fuel pixels pw ph x1 y1 x2 y2 color = Ok pixels' ->
     length pixels' = length pixels /\
     forall i, pixels' !! i = pixels !! i \/ pixels' !! i = Some color).
Proof.
  split; [|split].
  - intros fuel pw ph x0 y0 w h pixels' Hrun.
    pose proof (fill_rect_repaints fuel pixels pw ph x0 y0 w h color) as H.
    rewrite Hrun in H. exact H.
  - intros fuel pw ph cx cy r pixels' Hrun.
    pose proof (fill_circle_repaints fuel pixels pw ph cx cy r color) as H.
    rewrite Hrun in H. exact H.
  - intros fuel pw ph x1 y1 x2 y2 pixels' Hrun.
    pose proof (draw_line_repaints fuel pixels pw ph x1 y1 x2 y2 color) as H.
    rewrite Hrun in H. exact H.
Qed.

(** ** How painting runs compose *)

(** Two runs that paint the same elements give the same buffer. *)
Lemma paints_agree n color P Q f g s :
  paints n color P f -> paints n color Q g -> length s = n ->
  (forall i, (i < n)%nat -> P i = Q i) -> f s = g s.
Proof.
  intros Hf Hg Hs HPQ.
  destruct (Hf s Hs) as (s1 & -> & Hl1 & Hp1).
  destruct (Hg s Hs) as (s2 & -> & Hl2 & Hp2).
  f_equal. apply list_eq. intros i.
  destruct (s !! i) as [v|] eqn:Hi.
  - rewrite (Hp1 i v Hi), (Hp2 i v Hi), HPQ; [done|].
    apply lookup_lt_Some in Hi. lia.
  - apply lookup_ge_None in Hi.
    rewrite !(proj2 (lookup_ge_None _ _)); [done | lia | lia].
Qed.

(** One painting run after another paints the union. *)
Lemma paints_then n color P Q f g :
  paints n color P f -> paints n color Q g ->
  paints n color (fun i => P i || Q i) (fun s => f s ≫= g).
Proof.
  intros Hf Hg s Hs.
  destruct (Hf s Hs) as (s1 & -> & Hl1 & Hp1).
  destruct (Hg s1 Hl1) as (s2 & Hr2 & Hl2 & Hp2).
  exists s2. split; [exact Hr2|]. split; [exact Hl2|].
  intros i v Hi. rewrite (Hp2 i _ (Hp1 i v Hi)).
  destruct (P i), (Q i); reflexivity.
Qed.

(** A counting loop whose body changes nothing changes nothing. *)
Lemma for_lt_skip (body : Z -> list Z -> result (list Z)) bound fuel s :
  bound <= INT_MAX -> Z.max 0 bound < Z.of_nat fuel ->
  (forall v s', 0 <= v < bound -> body v s' = Ok s') ->
  for_loop fuel (fun v => v <? bound) int_succ body 0 s = Ok s.
Proof.
  intros Hb Hfuel Hbody.
  destruct (paints_for_lt (length s) 0 body (fun _ _ => false) bound fuel Hb)
    with (s := s) as (s' & -> & Hl & Hp); auto.
  - intros v Hv s0 Hs0. exists s0. rewrite (Hbody v s0 Hv). auto.
  - f_equal. apply (paints_nothing s s' 0 _ Hl Hp). intros i _.
    apply not_true_is_false. intros He. apply existsb_exists in He.
    destruct He as (x & _ & Hx). discriminate.
Qed.

(** ** More on [fill_rect] *)

(** X2.  A rectangle of width zero or height zero is a no-op, whatever its
    position and the buffer. *)
Theorem fill_rect_empty fuel pixels pw ph x0 y0 w h color :
  0 <= w -> 0 <= h -> w = 0 \/ h = 0 -> Z.max w h < Z.of_nat fuel ->
  opencad_fill_rect fuel pixels pw ph x0 y0 w h color = Ok pixels.
Proof.
  intros Hw Hh Hempty Hfuel. unfold opencad_fill_rect.
  pose proof (int_of_size_le h Hh) as Hih.
  pose proof (int_wrap_range h) as Hrh.
  apply for_lt_skip; [apply Hrh | lia |].
  intros dy s' Hdy. cbv zeta.
  destruct (_ && _); [|done].
  destruct Hempty as [-> | ->].
  - destruct fuel as [|fuel]; [lia|]. reflexivity.
  - change (int_of_size 0) with 0 in Hdy. lia.
Qed.

Lemma fill_rect_empty_witness :
  0 <= 0 /\ 0 <= 5 /\ (0 = 0 \/ 5 = 0) /\
  opencad_fill_rect 6 [1; 2; 3; 4] 2 2 1 (-3) 0 5 9 = Ok [1; 2; 3; 4].
Proof.
  assert (H : 0 = 0 \/ 5 = 0) by (left; reflexivity).
  split; [lia|]. split; [lia|]. split; [exact H|].
  apply (fill_rect_empty 6 [1; 2; 3; 4] 2 2 1 (-3) 0 5 9); [lia | lia | exact H | lia].
Defined.

(** X3.  Filling the rectangle that is the whole buffer does what [fill]
    does: both leave every element equal to the colour. *)
Theorem fill_rect_whole_is_fill fuel pixels width height color :
  buffer_ok pixels width height -> width <= INT_MAX -> height <= INT_MAX ->
  width * height < Z.of_nat fuel -> Z.max width height < Z.of_nat fuel ->
  opencad_fill_rect fuel pixels width height 0 0 width height color =
    Ok (replicate (length pixels) color) /\
  opencad_fill fuel pixels width height color =
    Ok (replicate (length pixels) color).
Proof.
  intros Hbuf Bw Bh Hf1 Hf2. pose proof Hbuf as (Hw & Hh & Hlen & Hmax).
  pose proof (int_of_size_le width Hw). pose proof (int_of_size_le height Hh).
  assert (Hall : paints (length pixels) color (fun _ => true)
                   (fun s => Ok (replicate (length s) color))).
  { intros s Hs. eexists. split; [reflexivity|].
    split; [by rewrite length_replicate|].
    intros i v Hi. apply lookup_replicate_2. by apply lookup_lt_Some in Hi. }
  split.
  - apply (paints_agree (length pixels) color _ _
             (fun s => opencad_fill_rect fuel s width height 0 0 width height color)
             (fun s => Ok (replicate (length s) color)) pixels
             (fill_rect_paints fuel pixels width height 0 0 width height color Hbuf
                ltac:(lia)) Hall eq_refl).
    intros i Hi.
    destruct (pixel_of_index pixels width height i Hbuf Hi) as (x & y & Hx & Hy & ->).
    apply rect_mask_covers; lia.
  - apply (paints_agree (length pixels) color _ _
             (fun s => opencad_fill fuel s width height color)
             (fun s => Ok (replicate (length s) color)) pixels
             (fill_paints fuel pixels width height color Hbuf Hf1) Hall eq_refl).
    intros i Hi. apply existsb_seqZ. exists (Z.of_nat i).
    split; [lia|]. apply Nat.eqb_eq. lia.
Qed.

Lemma fill_rect_whole_is_fill_witness :
  buffer_ok [1; 2; 3; 4; 5; 6] 3 2 /\
  opencad_fill_rect 7 [1; 2; 3; 4; 5; 6] 3 2 0 0 3 2 9 =
    Ok (replicate (length [1; 2; 3; 4; 5; 6]) 9) /\
  opencad_fill 7 [1; 2; 3; 4; 5; 6] 3 2 9 =
    Ok (replicate (length [1; 2; 3; 4; 5; 6]) 9).
Proof.
  assert (Hb : buffer_ok [1; 2; 3; 4; 5; 6] 3 2)
    by (unfold buffer_ok, SIZE_MAX; simpl; lia).
  split; [exact Hb|].
  apply (fill_rect_whole_is_fill 7 [1; 2; 3; 4; 5; 6] 3 2 9 Hb);
    unfold INT_MAX; lia.
Defined.

(** X4.  Rectangles of one colour can be filled in either order with the
    same result, and filling a rectangle a second time changes nothing. *)
Theorem fill_rect_order fuel pixels pw ph xa ya wa ha xb yb wb hb color :
  buffer_ok pixels pw ph ->
  0 <= wa -> 0 <= ha -> 0 <= wb -> 0 <= hb ->
  Z.max (Z.max wa ha) (Z.max wb hb) < Z.of_nat fuel ->
  exists pa pb pab,
    opencad_fill_rect fuel pixels pw ph xa ya wa ha color = Ok pa /\
    opencad_fill_rect fuel pixels pw ph xb yb wb hb color = Ok pb /\
    opencad_fill_rect fuel pa pw ph xb yb wb hb color = Ok pab /\
    opencad_fill_rect fuel pb pw ph xa ya wa ha color = Ok pab /\
    opencad_fill_rect fuel pa pw ph xa ya wa ha color = Ok pa.
Proof.
  intros Hbuf Hwa Hha Hwb Hhb Hfuel.
  pose proof (int_of_size_le wa Hwa). pose proof (int_of_size_le ha Hha).
  pose proof (int_of_size_le wb Hwb). pose proof (int_of_size_le hb Hhb).
  pose proof (fill_rect_paints fuel pixels pw ph xa ya wa ha color Hbuf ltac:(lia))
    as HA.
  pose proof (fill_rect_paints fuel pixels pw ph xb yb wb hb color Hbuf ltac:(lia))
    as HB.
  destruct (HA pixels eq_refl) as (pa & Hpa & Hla & Hqa).
  destruct (HB pixels eq_refl) as (pb & Hpb & Hlb & Hqb).
  destruct (HB pa Hla) as (pab & Hpab & Hlab & Hqab).
  exists pa, pb, pab. split; [done|]. split; [done|]. split; [done|]. split.
  - pose proof (paints_agree _ _ _ _ _ _ pixels
                  (paints_then _ _ _ _ _ _ HB HA) (paints_then _ _ _ _ _ _ HA HB)
                  eq_refl) as Hswap.
    cbv beta in Hswap. rewrite Hpa, Hpb in Hswap. cbn [mbind result_bind] in Hswap.
    rewrite Hswap; [exact Hpab|]. intros i _. apply orb_comm.
  - pose proof (paints_agree _ _ _ _ _ _ pixels
                  (paints_then _ _ _ _ _ _ HA HA) HA eq_refl) as Hidem.
    cbv beta in Hidem. rewrite Hpa in Hidem. cbn [mbind result_bind] in Hidem.
    apply Hidem. intros i _. apply orb_diag.
Qed.

Lemma fill_rect_order_witness :
  buffer_ok (replicate 12 0) 4 3 /\
  exists pa pb pab,
    opencad_fill_rect 4 (replicate 12 0) 4 3 0 0 2 2 7 = Ok pa /\
    opencad_fill_rect 4 (replicate 12 0) 4 3 1 1 3 1 7 = Ok pb /\
    opencad_fill_rect 4 pa 4 3 1 1 3 1 7 = Ok pab /\
    opencad_fill_rect 4 pb 4 3 0 0 2 2 7 = Ok pab /\
    opencad_fill_rect 4 pa 4 3 0 0 2 2 7 = Ok pa.
Proof.
  assert (Hb : buffer_ok (replicate 12 0) 4 3)
    by (unfold buffer_ok, SIZE_MAX; simpl; lia).
  split; [exact Hb|].
  apply (fill_rect_order 4 (replicate 12 0) 4 3 0 0 2 2 1 1 3 1 7 Hb); lia.
Defined.

(** ** More on [fill_circle] *)

(** Storing one pixel, as a painting run. *)
Lemma paints_one_pixel pixels pw ph x y color :
  buffer_ok pixels pw ph ->
  paints (length pixels) color
    (fun i => bool_decide (0 <= x < pw /\ 0 <= y < ph) && Nat.eqb i (pixel_index pw x y))
    (fun s =>
       Ok (if bool_decide (0 <= x < pw /\ 0 <= y < ph)
           then <[pixel_index pw x y := color]> s else s)).
Proof.
  intros Hbuf s Hs. eexists. split; [reflexivity|].
  destruct (bool_decide (0 <= x < pw /\ 0 <= y < ph)) eqn:Hd.
  - apply bool_decide_eq_true in Hd as [Hx Hy].
    destruct (pixel_address pixels pw ph x y Hbuf Hx Hy) as [_ Hlt].
    split; [by rewrite length_insert|]. intros i v Hi. simpl.
    destruct (Nat.eqb_spec i (pixel_index pw x y)) as [->|Hne].
    + apply list_lookup_insert_eq. lia.
    + by rewrite list_lookup_insert_ne.
  - split; [done|]. intros i v Hi. done.
Qed.

(** X5.  A circle of radius zero is its centre: [fill_circle] with [r = 0]
    sets the centre pixel when it lies in the buffer and changes nothing
    otherwise. *)
Theorem fill_circle_radius_zero fuel pixels pw ph cx cy color :
  buffer_ok pixels pw ph -> pw <= INT_MAX -> ph <= INT_MAX ->
  INT_MIN <= cx < INT_MAX -> INT_MIN <= cy < INT_MAX ->
  1 < Z.of_nat fuel ->
  opencad_fill_circle fuel pixels pw ph cx cy 0 color =
    Ok (if bool_decide (0 <= cx < pw /\ 0 <= cy < ph)
        then <[pixel_index pw cx cy := color]> pixels else pixels).
Proof.
  intros Hbuf Bpw Bph Hcx Hcy Hfuel. pose proof Hbuf as (Hpw & Hph & _).
  assert (Icx : is_int cx) by (unfold is_int; lia).
  assert (Icy : is_int cy) by (unfold is_int; lia).
  assert (Hp : paints (length pixels) color (circle_mask pw ph cx cy 0)
                 (fun s => opencad_fill_circle fuel s pw ph cx cy 0 color)).
  { assert (Ea : forall c, is_int c -> int_add c 0 = c).
    { intros c Hc. rewrite int_add_exact; rewrite Z.add_0_r; auto. }
    assert (Es : forall c, is_int c -> int_sub c 0 = c).
    { intros c Hc. rewrite int_sub_exact; rewrite Z.sub_0_r; auto. }
    apply fill_circle_paints; auto; rewrite ?Ea, ?Es by done; lia. }
  apply (paints_agree _ _ _ _ _ _ pixels Hp
           (paints_one_pixel pixels pw ph cx cy color Hbuf) eq_refl).
  intros i Hi.
  destruct (pixel_of_index pixels pw ph i Hbuf Hi) as (x & y & Hx & Hy & ->).
  pose proof (circle_mask_disk pw ph cx cy 0 x y ltac:(lia) ltac:(lia) ltac:(lia)) as Hd.
  rewrite !Z.add_0_r, !Z.sub_0_r in Hd. specialize (Hd Icx Icx Icy Icy Hx Hy).
  apply eq_true_iff_eq. rewrite Hd, andb_true_iff, bool_decide_eq_true, Nat.eqb_eq.
  split.
  - intros Hsq.
    pose proof (square_bound (x - cx) (y - cy) 0 ltac:(lia) Hsq).
    pose proof (square_bound (y - cy) (x - cx) 0 ltac:(lia) ltac:(lia)).
    assert (x = cx) as -> by lia. assert (y = cy) as -> by lia. auto.
  - intros [[Hcx' Hcy'] He].
    apply pixel_index_inj in He as [-> ->]; [nia | lia | lia | lia | lia].
Qed.

Lemma fill_circle_radius_zero_witness :
  buffer_ok (replicate 6 0) 3 2 /\
  opencad_fill_circle 2 (replicate 6 0) 3 2 1 1 0 7 =
    Ok (if bool_decide (0 <= 1 < 3 /\ 0 <= 1 < 2)
        then <[pixel_index 3 1 1 := 7]> (replicate 6 0) else replicate 6 0).
Proof.
  assert (Hb : buffer_ok (replicate 6 0) 3 2)
    by (unfold buffer_ok, SIZE_MAX; simpl; lia).
  split; [exact Hb|].
  apply (fill_circle_radius_zero 2 (replicate 6 0) 3 2 1 1 7 Hb);
    unfold INT_MIN, INT_MAX; lia.
Defined.



(** ** More on [draw_line] *)

(** Two buffers that agree pixel by pixel are equal. *)
Lemma buffers_equal pixels pw ph (p1 p2 : list Z) :
  buffer_ok pixels pw ph ->
  length p1 = length pixels -> length p2 = length pixels ->
  (forall x y, 0 <= x < pw -> 0 <= y < ph ->
     p1 !! pixel_index pw x y = p2 !! pixel_index pw x y) ->
  p1 = p2.
Proof.
  intros Hbuf H1 H2 Hpix. apply list_eq. intros i.
  destruct (Nat.lt_ge_cases i (length pixels)) as [Hi|Hi].
  - destruct (pixel_of_index pixels pw ph i Hbuf Hi) as (x & y & Hx & Hy & ->).
    by apply Hpix.
  - rewrite !(proj2 (lookup_ge_None _ _)); [done | lia | lia].
Qed.

(** What a painting run does to the pixel [(x, y)]. *)
Lemma paints_pixel_at pixels pw ph color P f :
  buffer_ok pixels pw ph ->
  paints (length pixels) color P f ->
  exists pixels', f pixels = Ok pixels' /\ length pixels' = length pixels /\
    forall x y, 0 <= x < pw -> 0 <= y < ph ->
      pixels' !! pixel_index pw x y =
        if P (pixel_index pw x y) then Some color
        else pixels !! pixel_index pw x y.
Proof.
  intros Hbuf Hf. destruct (Hf pixels eq_refl) as (pixels' & Hrun & Hl & Hp).
  exists pixels'. split; [done|]. split; [done|]. intros x' y' Hx Hy.
  destruct (pixel_address pixels pw ph x' y' Hbuf Hx Hy) as [_ Hlt].
  destruct (lookup_lt_is_Some_2 pixels _ Hlt) as [v Hv].
  rewrite (Hp _ _ Hv), Hv. by destruct (P _).
Qed.

(** The line, vertical or not, with end points within 16 bits. *)
Lemma draw_line_pixels fuel pixels pw ph x1 y1 x2 y2 color :
  buffer_ok pixels pw ph -> pw <= INT_MAX -> ph <= INT_MAX ->
  -32767 <= x1 <= 32767 -> -32767 <= y1 <= 32767 ->
  -32767 <= x2 <= 32767 -> -32767 <= y2 <= 32767 ->
  Z.max (Z.abs (x2 - x1) + 1) (4 * Z.abs (y2 - y1) + 5) < Z.of_nat fuel ->
  exists pixels',
    opencad_draw_line fuel pixels pw ph x1 y1 x2 y2 color = Ok pixels' /\
    length pixels' = length pixels /\
    forall x y, 0 <= x < pw -> 0 <= y < ph ->
      (line_covers x1 y1 x2 y2 x y ->
       pixels' !! pixel_index pw x y = Some color) /\
      (~ line_covers x1 y1 x2 y2 x y ->
       pixels' !! pixel_index pw x y = pixels !! pixel_index pw x y).
Proof.
  intros Hbuf Bpw Bph Bx1 By1 Bx2 By2 Hfuel.
  pose proof Hbuf as (Hpw & Hph & _). unfold line_covers.
  destruct (decide (x1 = x2)) as [<-|Hne].
  - destruct (Z_lt_ge_dec x1 0) as [Hneg|Hpos];
      [|destruct (Z_lt_ge_dec x1 pw) as [Hin|Hout]].
    2: { destruct (draw_line_vertical_paints fuel pixels pw ph x1 y1 y2 color)
           with (s := pixels) as (pixels' & Hrun & Hl & Hp);
           try (unfold is_int, INT_MIN, INT_MAX; lia); auto.
         exists pixels'. split; [done|]. split; [done|]. intros x y Hx Hy.
         destruct (pixel_address pixels pw ph x y Hbuf Hx Hy) as [_ Hlt].
         destruct (lookup_lt_is_Some_2 pixels _ Hlt) as [v Hv].
         pose proof (column_mask_spec pw ph x1 (Z.min y1 y2) (Z.max y1 y2) x y
                       ltac:(lia) ltac:(lia) Hx Hy) as Hm.
         rewrite (Hp _ _ Hv), Hv.
         destruct (column_mask pw ph x1 (Z.min y1 y2) (Z.max y1 y2) (pixel_index pw x y)).
         - split; [done|]. intros Hn. exfalso. apply Hn. by apply Hm.
         - split; [|done]. intros Hin'. apply Hm in Hin'. discriminate. }
    all: exists pixels; split;
      [ unfold opencad_draw_line; cbv zeta;
        replace (int_sub x1 x1) with 0 by (unfold int_sub; by rewrite Z.sub_diag);
        simpl negb; cbv iota; unfold int_of_size;
        rewrite (int_wrap_id pw) by (unfold is_int, INT_MIN, INT_MAX in *; lia);
        destruct (Z.leb_spec 0 x1); destruct (Z.ltb_spec x1 pw);
        try lia; reflexivity
      | split; [done|]; intros x y Hx Hy; split; [lia | done] ].
  - destruct (draw_line_paints fuel pixels pw ph x1 y1 x2 y2 color Hbuf)
      with (s := pixels) as (pixels' & Hrun & Hl & Hp);
      try (unfold is_int, INT_MIN, INT_MAX; lia); try done.
    + rewrite int_sub_exact by (unfold is_int, INT_MIN, INT_MAX; lia). lia.
    + intros x Hr Hx. cbv zeta.
      rewrite (int_add_exact x 1) by (unfold is_int, INT_MIN, INT_MAX; lia).
      destruct (code_row_exact x1 y1 x2 y2 x Hne Bx1 By1 Bx2 By2 ltac:(lia))
        as [-> Ha].
      destruct (code_row_exact x1 y1 x2 y2 (x + 1) Hne Bx1 By1 Bx2 By2 ltac:(lia))
        as [-> Hb].
      unfold INT_MAX. lia.
    + exists pixels'. split; [done|]. split; [done|]. intros x y Hx Hy.
      destruct (pixel_address pixels pw ph x y Hbuf Hx Hy) as [_ Hlt].
      destruct (lookup_lt_is_Some_2 pixels _ Hlt) as [v Hv].
      pose proof (line_mask_rows pw ph x1 y1 x2 y2 x y ltac:(lia) ltac:(lia)
                    Hne Bx1 By1 Bx2 By2 Hx Hy) as Hm.
      rewrite (Hp _ _ Hv), Hv.
      destruct (line_mask pw ph x1 y1 x2 y2 (pixel_index pw x y)).
      * split; [done|]. intros Hn. exfalso. apply Hn. by apply Hm.
      * split; [|done]. intros Hin. apply Hm in Hin. discriminate.
Qed.







(** The condition of X7 matters: a line that starts left of column zero
    can miss its second end point.  From [(-5, 0)] to [(5, 1)] both
    quotients truncate toward zero from opposite sides, and column [5] gets
    row [0] only. *)
Example draw_line_second_end_missed :
  opencad_draw_line 12 (replicate 12 0) 6 2 (-5) 0 5 1 7 =
    Ok [7; 7; 7; 7; 7; 7; 0; 0; 0; 0; 0; 0].
Proof. reflexivity. Qed.



(** The clipped rectangle, pixel by pixel, within [int] range. *)
Lemma fill_rect_pixels fuel pixels pw ph x0 y0 w h color :
  buffer_ok pixels pw ph -> pw <= INT_MAX -> ph <= INT_MAX ->
  is_int x0 -> is_int y0 -> 0 <= w <= INT_MAX -> 0 <= h <= INT_MAX ->
  Z.max w h < Z.of_nat fuel ->
  exists pixels',
    opencad_fill_rect fuel pixels pw ph x0 y0 w h color = Ok pixels' /\
    length pixels' = length pixels /\
    forall x y, 0 <= x < pw -> 0 <= y < ph ->
      (x0 <= x < x0 + w /\ y0 <= y < y0 + h ->
       pixels' !! pixel_index pw x y = Some color) /\
      (~ (x0 <= x < x0 + w /\ y0 <= y < y0 + h) ->
       pixels' !! pixel_index pw x y = pixels !! pixel_index pw x y).
Proof.
  intros Hbuf Bpw Bph Hx0 Hy0 Hw Hh Hfuel. pose proof Hbuf as (Hpw & Hph & _).
  pose proof (int_of_size_le w ltac:(lia)). pose proof (int_of_size_le h ltac:(lia)).
  destruct (paints_pixel_at pixels pw ph color _ _ Hbuf
              (fill_rect_paints fuel pixels pw ph x0 y0 w h color Hbuf ltac:(lia)))
    as (pixels' & Hrun & Hl & Hpix).
  exists pixels'. split; [done|]. split; [done|]. intros x y Hx Hy.
  rewrite (Hpix x y Hx Hy). split.
  - intros [Hrx Hry]. rewrite rect_mask_covers; auto; lia.
  - intros Hn.
    destruct (rect_mask pw ph x0 y0 w h (pixel_index pw x y)) eqn:Hm; [|done].
    exfalso. apply Hn. apply (rect_mask_inside pw ph); auto; lia.
Qed.

(** X9.  A horizontal line is a rectangle one pixel high: [draw_line] from
    [(x1, y)] to [(x2, y)] gives the buffer that [fill_rect] gives for the
    rectangle at [(min(x1,x2), y)] of width [|x2 - x1| + 1] and height [1]. *)
Theorem draw_line_horizontal fuel pixels pw ph x1 x2 y color :
  buffer_ok pixels pw ph -> pw <= INT_MAX -> ph <= INT_MAX ->
  -32767 <= x1 <= 32767 -> -32767 <= x2 <= 32767 -> -32767 <= y <= 32767 ->
  Z.max (Z.abs (x2 - x1) + 1) 5 < Z.of_nat fuel ->
  exists pixels',
    opencad_draw_line fuel pixels pw ph x1 y x2 y color = Ok pixels' /\
    opencad_fill_rect fuel pixels pw ph (Z.min x1 x2) y (Z.abs (x2 - x1) + 1) 1 color =
      Ok pixels'.
Proof.
  intros Hbuf Bpw Bph Bx1 Bx2 By Hfuel.
  destruct (draw_line_pixels fuel pixels pw ph x1 y x2 y color)
    as (p1 & Hrun1 & Hl1 & Hpix1); auto; [rewrite Z.sub_diag; simpl; lia|].
  destruct (fill_rect_pixels fuel pixels pw ph (Z.min x1 x2) y
              (Z.abs (x2 - x1) + 1) 1 color)
    as (p2 & Hrun2 & Hl2 & Hpix2); auto;
    try (unfold is_int, INT_MIN, INT_MAX; lia).
  exists p1. split; [done|]. rewrite Hrun2. f_equal. symmetry.
  apply (buffers_equal pixels pw ph p1 p2 Hbuf Hl1 Hl2). intros x y' Hx Hy.
  destruct (Hpix1 x y' Hx Hy) as [Hin1 Hout1].
  destruct (Hpix2 x y' Hx Hy) as [Hin2 Hout2].
  assert (Hiff : line_covers x1 y x2 y x y' <->
            Z.min x1 x2 <= x < Z.min x1 x2 + (Z.abs (x2 - x1) + 1) /\
            y <= y' < y + 1).
  { unfold line_covers. destruct (decide (x1 = x2)) as [->|Hne]; [lia|].
    assert (Hrow : forall k, line_row x1 y x2 y k = y).
    { intros k. unfold line_row. cbv zeta.
      rewrite Z.sub_diag, !Z.mul_0_l, Z.quot_0_l by lia. lia. }
    rewrite !Hrow. lia. }
  destruct (decide (Z.min x1 x2 <= x < Z.min x1 x2 + (Z.abs (x2 - x1) + 1) /\
                    y <= y' < y + 1)) as [Hyes|Hno].
  - rewrite Hin2 by done. apply Hin1. by apply Hiff.
  - rewrite Hout2 by done. apply Hout1. intros Hc. apply Hno. by apply Hiff.
Qed.

Lemma draw_line_horizontal_witness :
  buffer_ok (replicate 25 0) 5 5 /\
  exists pixels',
    opencad_draw_line 8 (replicate 25 0) 5 5 3 2 (-2) 2 7 = Ok pixels' /\
    opencad_fill_rect 8 (replicate 25 0) 5 5 (Z.min 3 (-2)) 2 (Z.abs (-2 - 3) + 1) 1 7 =
      Ok pixels'.
Proof.
  assert (Hb : buffer_ok (replicate 25 0) 5 5)
    by (unfold buffer_ok, SIZE_MAX; simpl; lia).
  split; [exact Hb|].
  apply (draw_line_horizontal 8 (replicate 25 0) 5 5 3 (-2) 2 7 Hb);
    unfold INT_MAX; lia.
Defined.

(** X10.  A vertical line is a rectangle one pixel wide: [draw_line] from
    [(x, y1)] to [(x, y2)] gives the buffer that [fill_rect] gives for the
    rectangle at [(x, min(y1,y2))] of width [1] and height [|y2 - y1| + 1]. *)
Theorem draw_line_vertical_is_rect fuel pixels pw ph x y1 y2 color :
  buffer_ok pixels pw ph -> pw <= INT_MAX -> ph <= INT_MAX ->
  -32767 <= x <= 32767 -> -32767 <= y1 <= 32767 -> -32767 <= y2 <= 32767 ->
  4 * Z.abs (y2 - y1) + 5 < Z.of_nat fuel ->
  exists pixels',
    opencad_draw_line fuel pixels pw ph x y1 x y2 color = Ok pixels' /\
    opencad_fill_rect fuel pixels pw ph x (Z.min y1 y2) 1 (Z.abs (y2 - y1) + 1) color =
      Ok pixels'.
Proof.
  intros Hbuf Bpw Bph Bx By1 By2 Hfuel.
  destruct (draw_line_pixels fuel pixels pw ph x y1 x y2 color)
    as (p1 & Hrun1 & Hl1 & Hpix1); auto; [rewrite Z.sub_diag; simpl; lia|].
  destruct (fill_rect_pixels fuel pixels pw ph x (Z.min y1 y2)
              1 (Z.abs (y2 - y1) + 1) color)
    as (p2 & Hrun2 & Hl2 & Hpix2); auto;
    try (unfold is_int, INT_MIN, INT_MAX; lia).
  exists p1. split; [done|]. rewrite Hrun2. f_equal. symmetry.
  apply (buffers_equal pixels pw ph p1 p2 Hbuf Hl1 Hl2). intros x' y Hx Hy.
  destruct (Hpix1 x' y Hx Hy) as [Hin1 Hout1].
  destruct (Hpix2 x' y Hx Hy) as [Hin2 Hout2].
  assert (Hiff : line_covers x y1 x y2 x' y <->
            x <= x' < x + 1 /\
            Z.min y1 y2 <= y < Z.min y1 y2 + (Z.abs (y2 - y1) + 1)).
  { unfold line_covers. destruct (decide (x = x)); [lia|done]. }
  destruct (decide (x <= x' < x + 1 /\
                    Z.min y1 y2 <= y < Z.min y1 y2 + (Z.abs (y2 - y1) + 1)))
    as [Hyes|Hno].
  - rewrite Hin2 by done. apply Hin1. by apply Hiff.
  - rewrite Hout2 by done. apply Hout1. intros Hc. apply Hno. by apply Hiff.
Qed.

Lemma draw_line_vertical_is_rect_witness :
  buffer_ok (replicate 25 0) 5 5 /\
  exists pixels',
    opencad_draw_line 30 (replicate 25 0) 5 5 1 3 1 (-2) 7 = Ok pixels' /\
    opencad_fill_rect 30 (replicate 25 0) 5 5 1 (Z.min 3 (-2)) 1 (Z.abs (-2 - 3) + 1) 7 =
      Ok pixels'.
Proof.
  assert (Hb : buffer_ok (replicate 25 0) 5 5)
    by (unfold buffer_ok, SIZE_MAX; simpl; lia).
  split; [exact Hb|].
  apply (draw_line_vertical_is_rect 30 (replicate 25 0) 5 5 1 3 (-2) 7 Hb);
    unfold INT_MAX; lia.
Defined.



(** ** More on [save_to_ppm_file] *)

(** X11.  Whatever fails, [save_to_ppm_file] leaves no open stream and no
    garbage: when [fopen] fails the path is left as it was; otherwise the
    file is closed on return and holds a prefix of the complete image (the
    header followed by the pixel bytes), replacing what the path held. *)
Theorem save_leaves_prefix env fuel pixels width height w :
  buffer_ok pixels width height -> width * height < Z.of_nat fuel ->
  exists res w',
    opencad_save_to_ppm_file env fuel pixels width height w = Ok (res, w') /\
    match fopen_fails env with
    | Some _ => disk w' = disk w
    | None =>
        exists f, disk w' = Some f /\ is_open f = false /\
          data f `prefix_of` (ppm_header width height ++ flat_map pixel_bytes pixels)
    end.
Proof.
  intros Hbuf Hfuel.
  destruct (save_run env fuel pixels width height w Hbuf Hfuel)
    as (res & w' & Hrun & Hspec).
  exists res, w'. split; [exact Hrun|].
  destruct (fopen_fails env) as [e|]; [by destruct Hspec as (_ & _ & Hd)|].
  destruct Hspec as (f & Hd & Ho & _ & Hdata & _).
  exists f. split; [done|]. split; [done|].
  rewrite Hdata. unfold device.
  rewrite take_ge by (rewrite ppm_writes_length; lia).
  rewrite <- ppm_writes_concat.
  rewrite <- (numbered_snd 0 (ppm_writes pixels width height)) at 2.
  apply (transmit_prefix env _ []).
Qed.

Lemma save_leaves_prefix_witness :
  buffer_ok rgba_2x2 2 2 /\
  exists res w',
    opencad_save_to_ppm_file io_disk_full 5 rgba_2x2 2 2 world0 = Ok (res, w') /\
    match fopen_fails io_disk_full with
    | Some _ => disk w' = disk world0
    | None =>
        exists f, disk w' = Some f /\ is_open f = false /\
          data f `prefix_of` (ppm_header 2 2 ++ flat_map pixel_bytes rgba_2x2)
    end.
Proof.
  assert (Hb : buffer_ok rgba_2x2 2 2)
    by (unfold buffer_ok, SIZE_MAX; simpl; lia).
  split; [exact Hb|].
  apply (save_leaves_prefix io_disk_full 5 rgba_2x2 2 2 world0 Hb). lia.
Defined.

(** The three bytes of a pixel determine its bits 0-23. *)
Lemma pixel_bytes_inj p q :
  pixel_bytes p = pixel_bytes q -> p mod 16777216 = q mod 16777216.
Proof.
  rewrite !pixel_bytes_channels. intros H.
  assert (Hbyte : forall a b, 0 <= a < 256 -> 0 <= b < 256 ->
            ascii_of_N (Z.to_N a) = ascii_of_N (Z.to_N b) -> a = b).
  { intros a b Ha Hb He. apply (f_equal N_of_ascii) in He.
    rewrite !N_ascii_embedding in He by lia. lia. }
  injection H as H0 H1 H2.
  apply Hbyte in H0, H1, H2; try (apply Z.mod_pos_bound; lia).
  Z.div_mod_to_equations. lia.
Qed.

Lemma flat_map_pixel_bytes_inj pixels pixels2 :
  flat_map pixel_bytes pixels = flat_map pixel_bytes pixels2 ->
  Forall2 (fun p q => p mod 16777216 = q mod 16777216) pixels pixels2.
Proof.
  revert pixels2. induction pixels as [|p pixels IH]; intros [|q pixels2] H.
  - constructor.
  - discriminate.
  - discriminate.
  - cbn [flat_map] in H. apply app_inj_1 in H as [Hpq Hrest]; [|reflexivity].
    constructor; [by apply pixel_bytes_inj | by apply IH].
Qed.

(** X12.  The file keeps the red, green and blue channels and nothing
    else: two buffers of the same dimensions are saved as the same bytes
    exactly when every pair of pixels agrees on bits 0-23. *)
Theorem save_same_file_iff env fuel pixels pixels2 width height w :
  buffer_ok pixels width height -> buffer_ok pixels2 width height ->
  width * height < Z.of_nat fuel ->
  fopen_fails env = None -> (forall k, write_fails env k = None) ->
  exists w1 f1 w2 f2,
    opencad_save_to_ppm_file env fuel pixels width height w = Ok (0, w1) /\
    disk w1 = Some f1 /\
    opencad_save_to_ppm_file env fuel pixels2 width height w = Ok (0, w2) /\
    disk w2 = Some f2 /\
    (data f1 = data f2 <->
     Forall2 (fun p q => p mod 16777216 = q mod 16777216) pixels pixels2).
Proof.
  intros Hb1 Hb2 Hfuel Hopen Hall.
  destruct (save_complete env fuel pixels width height w Hb1 Hfuel Hopen Hall)
    as (w1 & f1 & Hr1 & Hd1 & Hdata1).
  destruct (save_complete env fuel pixels2 width height w Hb2 Hfuel Hopen Hall)
    as (w2 & f2 & Hr2 & Hd2 & Hdata2).
  exists w1, f1, w2, f2. repeat (split; [done|]).
  rewrite Hdata1, Hdata2. split.
  - intros He. apply app_inv_head in He. by apply flat_map_pixel_bytes_inj.
  - intros HF. by rewrite (flat_map_pixel_bytes_alpha pixels pixels2 HF).
Qed.

Lemma save_same_file_iff_witness :
  buffer_ok rgba_2x2 2 2 /\ buffer_ok [255; 65280; 16711680; 8421504] 2 2 /\
  exists w1 f1 w2 f2,
    opencad_save_to_ppm_file io_ok 5 rgba_2x2 2 2 world0 = Ok (0, w1) /\
    disk w1 = Some f1 /\
    opencad_save_to_ppm_file io_ok 5 [255; 65280; 16711680; 8421504] 2 2 world0 =
      Ok (0, w2) /\
    disk w2 = Some f2 /\
    (data f1 = data f2 <->
     Forall2 (fun p q => p mod 16777216 = q mod 16777216)
       rgba_2x2 [255; 65280; 16711680; 8421504]).
Proof.
  assert (Hb1 : buffer_ok rgba_2x2 2 2)
    by (unfold buffer_ok, SIZE_MAX; simpl; lia).
  assert (Hb2 : buffer_ok [255; 65280; 16711680; 8421504] 2 2)
    by (unfold buffer_ok, SIZE_MAX; simpl; lia).
  split; [exact Hb1|]. split; [exact Hb2|].
  apply (save_same_file_iff io_ok 5 rgba_2x2 [255; 65280; 16711680; 8421504]
           2 2 world0 Hb1 Hb2); [lia | reflexivity | intros k; reflexivity].
Defined.

(** X16.  On a system whose failing calls set [errno] to a nonzero code,
    [save_to_ppm_file] returns the code of every failure that is reported
    to it: a failed [fopen] gives its code and leaves the path as it was;
    otherwise the result is [0] exactly when no write of the run transmits,
    to the device, a write on which the device fails; and the first write
    that does so is the last one made: its code is returned and the file is
    closed.  For a stream that transmits every write at once, the result is
    [0] exactly when [fopen] and every write succeed. *)
Theorem save_reports_transmitted_failure env fuel pixels width height w :
  buffer_ok pixels width height -> width * height < Z.of_nat fuel ->
  posix env ->
  exists res w',
    opencad_save_to_ppm_file env fuel pixels width height w = Ok (res, w') /\
    (forall e, fopen_fails env = Some e ->
       res = e /\ res <> 0 /\ disk w' = disk w) /\
    (fopen_fails env = None ->
     (res = 0 <->
      forall k j, (k <= j <= length pixels)%nat ->
        buffered env j = false -> write_fails env k = None) /\
     (forall k e n j, (k <= j <= length pixels)%nat ->
        (forall k', (k' < k)%nat -> write_fails env k' = None) ->
        write_fails env k = Some (e, n) ->
        (forall i, (k <= i < j)%nat -> buffered env i = true) ->
        buffered env j = false ->
        res = e /\ res <> 0 /\ errno w' = e /\
        exists f, disk w' = Some f /\ nwrites f = S j /\ is_open f = false)) /\
    ((forall j, buffered env j = false) ->
     (res = 0 <->
      fopen_fails env = None /\
      forall k, (k <= length pixels)%nat -> write_fails env k = None)).
Proof.
  intros Hbuf Hfuel [Hpo Hpw].
  destruct (save_run env fuel pixels width height w Hbuf Hfuel)
    as (res & w' & Hrun & Hspec).
  exists res, w'. split; [exact Hrun|].
  assert (Hlen : forall i, (i <= length pixels)%nat ->
            length (take (S i) (ppm_writes pixels width height)) = S i).
  { intros i Hi. rewrite length_take_le; [done|]. rewrite ppm_writes_length. lia. }
  destruct (fopen_fails env) as [e0|] eqn:Hopen.
  { destruct Hspec as (-> & _ & Hd). pose proof (Hpo e0 eq_refl) as Hne.
    split; [intros e [= <-]; done|]. split; [intros Hc; discriminate|].
    intros _. split; [done|]. intros [Hc _]. discriminate. }
  destruct Hspec as (f & Hd & Ho & _ & _ & Hcase).
  split; [intros e Hc; discriminate|].
  assert (Hmain :
    (res = 0 <->
      forall k j, (k <= j <= length pixels)%nat ->
        buffered env j = false -> write_fails env k = None) /\
     (forall k e n j, (k <= j <= length pixels)%nat ->
        (forall k', (k' < k)%nat -> write_fails env k' = None) ->
        write_fails env k = Some (e, n) ->
        (forall i, (k <= i < j)%nat -> buffered env i = true) ->
        buffered env j = false ->
        res = e /\ res <> 0 /\ errno w' = e /\
        exists f, disk w' = Some f /\ nwrites f = S j /\ is_open f = false)).
  { destruct Hcase as [(-> & Hn & Hnone & _)
                      |(i & Hi & Hb & Hnone & Hfail & Hn & Herr & _)].
    - assert (Hall : forall k j, (k <= j <= length pixels)%nat ->
                buffered env j = false -> write_fails env k = None).
      { intros k j Hkj Hbj.
        apply (transmit_none env 0 _ [] (Hnone j ltac:(lia) Hbj)).
        rewrite Hlen by lia. lia. }
      split; [done|].
      intros k e n j Hkj _ Hw _ Hbj. rewrite (Hall k j Hkj Hbj) in Hw. discriminate.
    - destruct (transmit_some env 0 _ [] res Hfail) as (k1 & n1 & Hk1 & Hbefore1 & Hw1).
      rewrite Hlen in Hk1 by lia.
      pose proof (Hpw k1 res n1 Hw1) as Hne.
      split.
      + split; [done|]. intros Hall.
        rewrite (Hall k1 i ltac:(lia) Hb) in Hw1. discriminate.
      + intros k e n j Hkj Hbefore Hw Hbuffered Hbj.
        assert (k = k1) as ->.
        { destruct (Nat.lt_trichotomy k k1) as [Hlt|[->|Hgt]]; [|done|].
          - rewrite (Hbefore1 k ltac:(lia)) in Hw. discriminate.
          - rewrite (Hbefore k1 Hgt) in Hw1. discriminate. }
        assert (e = res) as -> by congruence.
        assert (j = i) as ->.
        { destruct (Nat.lt_trichotomy j i) as [Hlt|[->|Hgt]]; [|done|].
          - pose proof (Hnone j Hlt Hbj) as Hj. unfold device in Hj.
            rewrite (transmit_fails env 0 _ [] k1 res n) in Hj;
              [discriminate| |intros k' Hk'; apply Hbefore; lia|done].
            rewrite Hlen by lia. lia.
          - rewrite (Hbuffered i ltac:(lia)) in Hb. discriminate. }
        split; [done|]. split; [done|]. split; [done|]. by exists f. }
  split; [intros _; exact Hmain|].
  intros Hun. destruct Hmain as [Hiff _]. rewrite Hiff. split.
  - intros Hall. split; [done|]. intros k Hk. apply (Hall k k); [lia|apply Hun].
  - intros [_ Hall] k j Hkj _. apply Hall. lia.
Qed.

Lemma save_reports_transmitted_failure_witness :
  buffer_ok rgba_2x2 2 2 /\
  posix io_disk_full /\
  exists res w',
    opencad_save_to_ppm_file io_disk_full 5 rgba_2x2 2 2 world0 = Ok (res, w') /\
    (forall e, fopen_fails io_disk_full = Some e ->
       res = e /\ res <> 0 /\ disk w' = disk world0) /\
    (fopen_fails io_disk_full = None ->
     (res = 0 <->
      forall k j, (k <= j <= length rgba_2x2)%nat ->
        buffered io_disk_full j = false -> write_fails io_disk_full k = None) /\
     (forall k e n j, (k <= j <= length rgba_2x2)%nat ->
        (forall k', (k' < k)%nat -> write_fails io_disk_full k' = None) ->
        write_fails io_disk_full k = Some (e, n) ->
        (forall i, (k <= i < j)%nat -> buffered io_disk_full i = true) ->
        buffered io_disk_full j = false ->
        res = e /\ res <> 0 /\ errno w' = e /\
        exists f, disk w' = Some f /\ nwrites f = S j /\ is_open f = false)) /\
    ((forall j, buffered io_disk_full j = false) ->
     (res = 0 <->
      fopen_fails io_disk_full = None /\
      forall k, (k <= length rgba_2x2)%nat -> write_fails io_disk_full k = None)).
Proof.
  assert (Hb : buffer_ok rgba_2x2 2 2)
    by (unfold buffer_ok, SIZE_MAX; simpl; lia).
  assert (Hp : posix io_disk_full).
  { split; [intros e H; discriminate|]. intros k e n. simpl.
    destruct (Nat.eqb k 3); [|discriminate]. intros [= <- _]. lia. }
  split; [exact Hb|]. split; [exact Hp|].
  apply (save_reports_transmitted_failure io_disk_full 5 rgba_2x2 2 2 world0 Hb);
    [lia | exact Hp].
Defined.

(** * The example program *)

(** A counting loop keeps an invariant that each iteration keeps. *)
Lemma for_lt_invariant {S : Type} (Inv : Z -> S -> Prop)
    (body : Z -> S -> result S) bound :
  bound <= INT_MAX ->
  (forall v s, 0 <= v < bound -> Inv v s ->
     exists s', body v s = Ok s' /\ Inv (v + 1) s') ->
  forall (m : nat) lo fuel s,
    0 <= lo -> lo + Z.of_nat m = bound -> (m < fuel)%nat -> Inv lo s ->
    exists s', for_loop fuel (fun v => v <? bound) int_succ body lo s = Ok s' /\
               Inv bound s'.
Proof.
  intros Hb Hstep. induction m as [|m IH]; intros lo fuel s Hlo Hm Hfuel Hinv.
  - destruct fuel as [|fuel]; [lia|]. simpl.
    destruct (Z.ltb_spec lo bound); [lia|].
    exists s. split; [done|]. by replace bound with lo by lia.
  - destruct fuel as [|fuel]; [lia|]. simpl.
    destruct (Z.ltb_spec lo bound); [|lia].
    destruct (Hstep lo s ltac:(lia) Hinv) as (s1 & -> & Hinv1). simpl.
    assert (Hn : int_succ lo = lo + 1).
    { unfold int_succ. apply int_add_exact. unfold is_int, INT_MIN, INT_MAX in *. lia. }
    rewrite Hn. apply IH; auto; lia.
Qed.

Lemma fill_constant fuel pixels width height color :
  buffer_ok pixels width height -> width * height < Z.of_nat fuel ->
  opencad_fill fuel pixels width height color = Ok (replicate (length pixels) color).
Proof.
  intros Hbuf Hfuel. pose proof Hbuf as (Hw & Hh & Hlen & Hmax).
  assert (Hall : paints (length pixels) color (fun _ => true)
                   (fun s => Ok (replicate (length s) color))).
  { intros s Hs. eexists. split; [reflexivity|].
    split; [by rewrite length_replicate|].
    intros i v Hi. apply lookup_replicate_2. by apply lookup_lt_Some in Hi. }
  apply (paints_agree (length pixels) color _ _
           (fun s => opencad_fill fuel s width height color)
           (fun s => Ok (replicate (length s) color)) pixels
           (fill_paints fuel pixels width height color Hbuf Hfuel) Hall eq_refl).
  intros i Hi. apply existsb_seqZ. exists (Z.of_nat i).
  split; [lia|]. apply Nat.eqb_eq. lia.
Qed.

(** [(x + y) % 2 == 0] tests whether the sum is even. *)
Lemma int_rem_even n : 0 <= n <= 1000 -> (int_rem n 2 =? 0) = Z.even n.
Proof.
  intros Hn. unfold int_rem. rewrite Z.rem_mod_nonneg by lia.
  pose proof (Z.mod_pos_bound n 2 ltac:(lia)).
  rewrite int_wrap_id by (unfold is_int, INT_MIN, INT_MAX; lia).
  rewrite Zmod_even. by destruct (Z.even n).
Qed.

(** One cell of the checkerboard. *)
Lemma checker_cell fuel s x y :
  50 < Z.of_nat fuel -> 0 <= x < 16 -> 0 <= y < 12 -> checker_done x y s ->
  exists s',
    opencad_fill_rect fuel s WIDTH HEIGHT
      (int_mul x CELL_WIDTH) (int_mul y CELL_HEIGHT)
      (size_of_int CELL_WIDTH) (size_of_int CELL_HEIGHT)
      (if int_rem (int_add x y) 2 =? 0 then 4280295679 else BACKGROUND_COLOR) = Ok s' /\
    checker_done (x + 1) y s'.
Proof.
  intros Hfuel Hx Hy [Hlen Hpix].
  change CELL_WIDTH with 50. change CELL_HEIGHT with 50.
  change (size_of_int 50) with 50. change WIDTH with 800. change HEIGHT with 600.
  change BACKGROUND_COLOR with 4280295456.
  rewrite (int_mul_exact x 50), (int_mul_exact y 50), (int_add_exact x y)
    by (unfold is_int, INT_MIN, INT_MAX; lia).
  rewrite int_rem_even by lia.
  assert (Hbuf : buffer_ok s 800 600) by (unfold buffer_ok, SIZE_MAX; lia).
  destruct (fill_rect_pixels fuel s 800 600 (x * 50) (y * 50) 50 50
              (if Z.even (x + y) then 4280295679 else 4280295456) Hbuf)
    as (s' & Hrun & Hl & Hnew); try (unfold is_int, INT_MIN, INT_MAX; lia).
  exists s'. split; [exact Hrun|]. split; [lia|].
  intros px py Hpx Hpy.
  destruct (Hnew px py Hpx Hpy) as [Hin Hout].
  pose proof (Z.div_mod px 50 ltac:(lia)) as Ea.
  pose proof (Z.mod_pos_bound px 50 ltac:(lia)) as Ba.
  pose proof (Z.div_mod py 50 ltac:(lia)) as Eb.
  pose proof (Z.mod_pos_bound py 50 ltac:(lia)) as Bb.
  destruct (decide (x * 50 <= px < x * 50 + 50 /\ y * 50 <= py < y * 50 + 50))
    as [Hyes|Hno].
  - rewrite (Hin Hyes).
    assert (px / 50 = x) as -> by lia. assert (py / 50 = y) as -> by lia.
    destruct (Z.ltb_spec y y); [lia|]. rewrite Z.eqb_refl.
    destruct (Z.ltb_spec x (x + 1)); [|lia]. reflexivity.
  - rewrite (Hout Hno), (Hpix px py Hpx Hpy). f_equal. f_equal. f_equal.
    destruct (Z.ltb_spec (py / 50) y); [done|]. simpl.
    destruct (Z.eqb_spec (py / 50) y); [|done]. simpl.
    destruct (Z.ltb_spec (px / 50) x), (Z.ltb_spec (px / 50) (x + 1)); try done; lia.
Qed.

(** The two loops of [checker_example] fill every cell. *)
Lemma checker_loops fuel s :
  50 < Z.of_nat fuel -> checker_done 0 0 s ->
  exists s',
    for_loop fuel (fun y => y <? ROWS) int_succ
      (fun y pixels =>
         for_loop fuel (fun x => x <? COLS) int_succ
           (fun x pixels =>
              let color := BACKGROUND_COLOR in
              let color := if int_rem (int_add x y) 2 =? 0 then 4280295679 else color in
              opencad_fill_rect fuel pixels WIDTH HEIGHT
                (int_mul x CELL_WIDTH) (int_mul y CELL_HEIGHT)
                (size_of_int CELL_WIDTH) (size_of_int CELL_HEIGHT) color)
           0 pixels)
      0 s = Ok s' /\
    checker_done 0 12 s'.
Proof.
  intros Hfuel Hinit. change ROWS with 12. change COLS with 16.
  apply (for_lt_invariant (fun y s => checker_done 0 y s) _ 12)
    with (m := 12%nat); try (unfold INT_MAX; lia); [|done].
  intros y s0 Hy Hrow.
  destruct (for_lt_invariant (fun x s => checker_done x y s)
              (fun x pixels =>
                 let color := BACKGROUND_COLOR in
                 let color := if int_rem (int_add x y) 2 =? 0 then 4280295679 else color in
                 opencad_fill_rect fuel pixels WIDTH HEIGHT
                   (int_mul x CELL_WIDTH) (int_mul y CELL_HEIGHT)
                   (size_of_int CELL_WIDTH) (size_of_int CELL_HEIGHT) color)
              16 ltac:(unfold INT_MAX; lia))
    with (m := 16%nat) (lo := 0) (fuel := fuel) (s := s0)
    as (s1 & Hrun & [Hlen Hpix]); try lia; [|done|].
  - intros x s1 Hx Hcell. cbv zeta. by apply checker_cell.
  - exists s1. split; [exact Hrun|]. split; [done|].
    intros px py Hpx Hpy. rewrite (Hpix px py Hpx Hpy). f_equal. f_equal. f_equal.
    pose proof (Z.div_mod px 50 ltac:(lia)) as Ea.
    pose proof (Z.mod_pos_bound px 50 ltac:(lia)) as Ba.
    destruct (Z.ltb_spec (py / 50) y), (Z.ltb_spec (py / 50) (y + 1)); try lia;
      try done; simpl.
    + destruct (Z.eqb_spec (py / 50) y); [|lia]. simpl.
      destruct (Z.ltb_spec (px / 50) 16); [done|lia].
    + destruct (Z.eqb_spec (py / 50) y); [lia|]. simpl.
      destruct (Z.eqb_spec (py / 50) (y + 1)); [|done]. simpl.
      destruct (Z.ltb_spec (px / 50) 0); [lia|done].
Qed.

(** X14.  [checker_example] draws a checkerboard of 16 x 12 cells of
    50 x 50 pixels that tile the 800 x 600 buffer exactly: whatever the
    buffer held, afterwards pixel [(x, y)] is [0xFF2020FF] when
    [x/50 + y/50] is even and [0xFF202020] otherwise.  It prints an error
    message exactly when it returns [false], and when every call of the
    save succeeds it returns [true] and [checker.ppm] is the header for
    800 x 600 followed by the bytes of that picture. *)
Theorem checker_example_picture strerror env fuel pixels w :
  Z.of_nat (length pixels) = 480000 -> 480000 < Z.of_nat fuel ->
  exists ok pixels' w' msg,
    checker_example strerror env fuel pixels w = Ok (ok, pixels', w', msg) /\
    (forall x y, 0 <= x < 800 -> 0 <= y < 600 ->
       pixels' !! pixel_index 800 x y =
         Some (if Z.even (x / 50 + y / 50) then 4280295679 else 4280295456)) /\
    (ok = true -> msg = []) /\
    (ok = false ->
     msg = list_ascii_of_string "ERROR: could not save file checker.ppm: " ++
           strerror (errno w') ++ [newline]) /\
    (fopen_fails env = None -> (forall k, write_fails env k = None) ->
     ok = true /\
     exists f, disk w' = Some f /\
       data f = ppm_header 800 600 ++ flat_map pixel_bytes pixels').
Proof.
  intros Hlen Hfuel. unfold checker_example.
  assert (Hbuf : buffer_ok pixels WIDTH HEIGHT)
    by (unfold buffer_ok, SIZE_MAX, WIDTH, HEIGHT; lia).
  rewrite (fill_constant fuel pixels WIDTH HEIGHT BACKGROUND_COLOR Hbuf)
    by (unfold WIDTH, HEIGHT; lia).
  cbn [mbind result_bind].
  destruct (checker_loops fuel (replicate (length pixels) BACKGROUND_COLOR))
    as (s' & Hloops & [Hlen' Hpix]); [lia | |].
  { split; [rewrite length_replicate; lia|]. intros px py Hpx Hpy.
    destruct (pixel_address pixels 800 600 px py Hbuf Hpx Hpy) as [_ Hlt].
    rewrite lookup_replicate_2 by exact Hlt.
    destruct (Z.ltb_spec (py / 50) 0) as [Hneg|_].
    - pose proof (Z.div_pos py 50 ltac:(lia) ltac:(lia)). lia.
    - simpl. destruct (Z.eqb_spec (py / 50) 0); simpl; [|done].
      destruct (Z.ltb_spec (px / 50) 0) as [Hneg|_]; [|done].
      pose proof (Z.div_pos px 50 ltac:(lia) ltac:(lia)). lia. }
  match goal with
  | |- context [for_loop fuel ?c ?n ?b 0 (replicate _ _)] =>
      assert (Hloops' : for_loop fuel c n b 0
                          (replicate (length pixels) BACKGROUND_COLOR) = Ok s')
        by exact Hloops
  end.
  rewrite Hloops'. cbn [mbind result_bind].
  assert (Hbuf' : buffer_ok s' 800 600) by (unfold buffer_ok, SIZE_MAX; lia).
  assert (Hpic : forall x y, 0 <= x < 800 -> 0 <= y < 600 ->
            s' !! pixel_index 800 x y =
              Some (if Z.even (x / 50 + y / 50) then 4280295679 else 4280295456)).
  { intros x y Hx Hy. rewrite (Hpix x y Hx Hy).
    destruct (Z.ltb_spec (y / 50) 12) as [_|Hge]; [done|].
    pose proof (Z.div_lt_upper_bound y 50 12 ltac:(lia) ltac:(lia)). lia. }
  change WIDTH with 800. change HEIGHT with 600.
  destruct (save_run env fuel s' 800 600 w Hbuf' ltac:(lia))
    as (res & w' & Hsave & Hspec).
  rewrite Hsave. cbn [mbind result_bind]. cbv iota beta.
  destruct (Z.eqb_spec res 0) as [Hzero|Hnz]; cbn [negb]; cbv iota.
  - eexists _, _, _, _. split; [reflexivity|]. split; [exact Hpic|].
    split; [done|]. split; [discriminate|].
    intros Hopen Hall. split; [done|].
    destruct (save_complete env fuel s' 800 600 w Hbuf' ltac:(lia) Hopen Hall)
      as (w2 & f & Hsave2 & Hd & Hdata).
    rewrite Hsave in Hsave2. injection Hsave2 as _ <-. by exists f.
  - eexists _, _, _, _. split; [reflexivity|]. split; [exact Hpic|].
    split; [discriminate|]. split; [done|].
    intros Hopen Hall.
    destruct (save_complete env fuel s' 800 600 w Hbuf' ltac:(lia) Hopen Hall)
      as (w2 & f & Hsave2 & Hd & Hdata).
    rewrite Hsave in Hsave2. injection Hsave2 as Hres _. lia.
Qed.

Lemma checker_example_picture_witness :
  Z.of_nat (length (replicate (Z.to_nat 480000) 0)) = 480000 /\
  exists ok pixels' w' msg,
    checker_example (fun _ => []) io_ok (Z.to_nat 480001)
      (replicate (Z.to_nat 480000) 0) world0 = Ok (ok, pixels', w', msg) /\
    (forall x y, 0 <= x < 800 -> 0 <= y < 600 ->
       pixels' !! pixel_index 800 x y =
         Some (if Z.even (x / 50 + y / 50) then 4280295679 else 4280295456)) /\
    (ok = true -> msg = []) /\
    (ok = false ->
     msg = list_ascii_of_string "ERROR: could not save file checker.ppm: " ++
           (fun _ : Z => []) (errno w') ++ [newline]) /\
    (fopen_fails io_ok = None -> (forall k, write_fails io_ok k = None) ->
     ok = true /\
     exists f, disk w' = Some f /\
       data f = ppm_header 800 600 ++ flat_map pixel_bytes pixels').
Proof.
  assert (Hl : Z.of_nat (length (replicate (Z.to_nat 480000) 0)) = 480000)
    by (rewrite length_replicate; lia).
  split; [exact Hl|].
  apply (checker_example_picture (fun _ => []) io_ok (Z.to_nat 480001)
           (replicate (Z.to_nat 480000) 0) world0 Hl).
  lia.
Defined.
